(** * CRM GraphQL schema: the handlers of [crm/schema.py]

    A shallow embedding of the validation rules, of the four mutation
    handlers ([CreateCustomer], [BulkCreateCustomers], [CreateProduct],
    [CreateOrder]) and of the resolvers of [Query], together with the part
    of the Python and Django runtime they rely on: regular-expression
    matching, [Decimal] arithmetic and printing, exceptions, the entity
    store and [transaction.atomic]. *)

From stdpp Require Import base strings list gmap pretty.
From Stdlib Require Import ZArith NArith Ascii String Lia.

Local Open Scope string_scope.
Local Open Scope list_scope.
Local Open Scope Z_scope.

(** ** Characters and strings

    Names, emails, ids, numerals and messages are modelled by [string],
    the bytes of the text in UTF-8: the handlers compare, concatenate and
    print them, and the numerals they build are ASCII.  A phone is matched
    character by character against a pattern with [\d], which in a [str]
    pattern matches the decimal digits of every script, so a phone is the
    sequence of its code points ([text]). *)

Definition is_digit (c : ascii) : bool :=
  (48 <=? nat_of_ascii c)%nat && (nat_of_ascii c <=? 57)%nat.

Fixpoint all_digits (s : string) : bool :=
  match s with
  | EmptyString => true
  | String c s' => is_digit c && all_digits s'
  end.

(** A Python [str] as the sequence of its code points. *)
Definition text : Type := list N.

(** The code point of an ASCII character, and the text of an ASCII
    string. *)
Definition chr (a : ascii) : N := N_of_ascii a.

Fixpoint text_of (s : string) : text :=
  match s with
  | EmptyString => []
  | String a s' => chr a :: text_of s'
  end.

Definition newline : N := 10%N.

(** The code points of Unicode category Nd (decimal digit) come in runs of
    ten, from the digit zero to the digit nine of a script.  These are the
    66 zeros of Unicode 14.0, the database of CPython 3.11: U+0030,
    U+0660 (Arabic-Indic), U+06F0, ..., U+FF10 (fullwidth), ...,
    U+1FBF0. *)
Definition decimal_zeros : list N :=
  [48; 1632; 1776; 1984; 2406; 2534; 2662; 2790; 2918; 3046; 3174; 3302;
   3430; 3558; 3664; 3792; 3872; 4160; 4240; 6112; 6160; 6470; 6608; 6784;
   6800; 6992; 7088; 7232; 7248; 42528; 43216; 43264; 43472; 43504; 43600;
   44016; 65296; 66720; 68912; 69734; 69872; 69942; 70096; 70384; 70736;
   70864; 71248; 71360; 71472; 71904; 72016; 72784; 73040; 73120; 92768;
   92864; 93008; 120782; 120792; 120802; 120812; 120822; 123200; 123632;
   125264; 130032]%N.

(** [str.isdecimal] on one character: what [\d] matches. *)
Definition is_decimal (c : N) : bool :=
  existsb (λ z, (z <=? c)%N && (c <? z + 10)%N) decimal_zeros.

Definition all_decimal (t : text) : bool := forallb is_decimal t.

(** ** Regular expressions ([re.match])

    The fragment of Python's pattern language that [validate_phone] uses. *)

Module Re.

Inductive regex : Type :=
| Lit (c : N)                      (* an ordinary or escaped character *)
| Digit                            (* \d *)
| Bol                              (* ^  *)
| Eol                              (* $  *)
| Opt (r : regex)                  (* r? *)
| Rep (r : regex) (lo hi : nat)    (* r{lo,hi} *)
| Seq (r1 r2 : regex)              (* r1 r2 *)
| Alt (r1 r2 : regex).             (* r1|r2 *)

(** Backtracking matcher in continuation-passing style.  [pos] is the number
    of characters already consumed, [s] the rest of the subject; [k] is
    called with every way the expression can match, in Python's order of
    preference.  Without [re.MULTILINE], [^] matches at position 0 only and
    [$] matches at the end of the subject and just before a newline that is
    its last character. *)
Fixpoint go (r : regex) (pos : nat) (s : text)
    (k : nat → text → bool) {struct r} : bool :=
  match r with
  | Lit c =>
      match s with
      | a :: s' => if decide (a = c) then k (S pos) s' else false
      | [] => false
      end
  | Digit =>
      match s with
      | a :: s' => if is_decimal a then k (S pos) s' else false
      | [] => false
      end
  | Bol => if decide (pos = 0%nat) then k pos s else false
  | Eol =>
      match s with
      | [] => k pos s
      | [a] => if decide (a = newline) then k pos s else false
      | _ => false
      end
  | Opt r1 => go r1 pos s k || k pos s
  | Rep r1 lo hi =>
      (fix rep (hi lo pos : nat) (s : text) {struct hi} : bool :=
         match hi with
         | O => if decide (lo = 0%nat) then k pos s else false
         | S hi' =>
             go r1 pos s (λ pos' s', rep hi' (Nat.pred lo) pos' s')
             || (if decide (lo = 0%nat) then k pos s else false)
         end) hi lo pos s
  | Seq r1 r2 => go r1 pos s (λ pos' s', go r2 pos' s' k)
  | Alt r1 r2 => go r1 pos s k || go r2 pos s k
  end.

(** [bool(re.match(pattern, subject))]: is there a match starting at the
    beginning of the subject? *)
Definition matches (pattern : regex) (subject : text) : bool :=
  go pattern 0 subject (λ _ _, true).

End Re.

(** ** Numbers as text: [str(int)], [int(str)] and [len(str(int))] *)

Definition digit_char (d : N) : ascii := ascii_of_N (48 + d).
Definition digit_val (c : ascii) : N := N_of_ascii c - 48.

(** Decimal digits of [n] in front of [acc], most significant first. *)
Fixpoint str_N_go (fuel : nat) (n : N) (acc : string) : string :=
  match fuel with
  | O => acc
  | S fuel' =>
      let acc' := String (digit_char (n mod 10)) acc in
      if (n <? 10)%N then acc' else str_N_go fuel' (n / 10) acc'
  end.

(** [str(n)] for a non-negative [int]; the number of bits of [n] bounds the
    number of its decimal digits. *)
Definition str_N (n : N) : string :=
  str_N_go (S (N.to_nat (N.log2 n))) n "".

(** [str(z)] for an [int]. *)
Definition str_Z (z : Z) : string :=
  if z <? 0 then String "-" (str_N (Z.abs_N z)) else str_N (Z.abs_N z).

(** [len(str(n))]. *)
Definition ndigits (n : N) : nat := String.length (str_N n).

(** [int(s)] for a string of ASCII digits read after the prefix value
    [acc]; [None] when a character is not a digit. *)
Fixpoint int_digits (s : string) (acc : N) : option N :=
  match s with
  | EmptyString => Some acc
  | String c s' =>
      if is_digit c then int_digits s' (10 * acc + digit_val c)%N else None
  end.

(** ['0' * n] *)
Fixpoint zeros (n : nat) : string :=
  match n with O => "" | S n' => String "0" (zeros n') end.

(** [s[:n]] and [s[n:]] for [0 <= n]. *)
Fixpoint str_take (n : nat) (s : string) : string :=
  match n, s with
  | S n', String c s' => String c (str_take n' s')
  | _, _ => ""
  end.

Fixpoint str_drop (n : nat) (s : string) : string :=
  match n, s with
  | S n', String _ s' => str_drop n' s'
  | _, _ => s
  end.

(** [sep.join(l)] *)
Fixpoint join (sep : string) (l : list string) : string :=
  match l with
  | [] => ""
  | [x] => x
  | x :: l' => x +:+ sep +:+ join sep l'
  end.

(** ** [decimal.Decimal]

    Finite, non-negative decimals: the coefficient [_int] and the exponent
    [_exp] of Python's representation, value [d_int * 10 ^ d_exp].  The
    data model has no negative price or total, and no handler produces a
    signed or special value. *)

Record Decimal : Type := { d_int : N; d_exp : Z }.

(** [Decimal('0')], also what the [int] 0 that [sum] starts from is
    converted to. *)
Definition Decimal_zero : Decimal := {| d_int := 0; d_exp := 0 |}.

(** Precision of the default arithmetic context. *)
Definition prec : nat := 28.

(** The sum before rounding: both coefficients are brought to the smaller
    exponent and added. *)
Definition exact_add (a b : Decimal) : Decimal :=
  let e := Z.min (d_exp a) (d_exp b) in
  {| d_int := (d_int a * 10 ^ Z.to_N (d_exp a - e)
               + d_int b * 10 ^ Z.to_N (d_exp b - e))%N;
     d_exp := e |}.

(** [Decimal._fix] under the default context: a coefficient of more than
    [prec] digits is rounded to [prec] digits, ROUND_HALF_EVEN.  The
    exponent limits of the context (Emin, Emax = -999999, 999999) are not
    modelled. *)
Definition dec_fix (d : Decimal) : Decimal :=
  let len := ndigits (d_int d) in
  if (len <=? prec)%nat then d
  else
    let drop := N.of_nat (len - prec) in
    let q := (d_int d / 10 ^ drop)%N in
    let r := (d_int d mod 10 ^ drop)%N in
    let half := (5 * 10 ^ (drop - 1))%N in
    let q' := if (half <? r)%N || ((r =? half)%N && N.odd q)
              then (q + 1)%N else q in
    if (prec <? ndigits q')%nat
    then {| d_int := (q' / 10)%N; d_exp := d_exp d + Z.of_N drop + 1 |}
    else {| d_int := q'; d_exp := d_exp d + Z.of_N drop |}.

(** [a + b] on [Decimal]: the exact sum, rounded to the context precision. *)
Definition dec_add (a b : Decimal) : Decimal := dec_fix (exact_add a b).

(** [sum(prices)]: Python's [sum] folds [+] from the left starting at 0. *)
Definition dec_sum (l : list Decimal) : Decimal := foldl dec_add Decimal_zero l.




(** ["%+d" % z] *)
Definition str_signed (z : Z) : string :=
  (if z <? 0 then "-" else "+") +:+ str_N (Z.abs_N z).

(** [Decimal.__str__] (scientific notation with a capital E when the
    exponent is positive or the value is below 1e-6). *)
Definition Decimal_str (d : Decimal) : string :=
  let digits := str_N (d_int d) in
  let len := Z.of_nat (String.length digits) in
  let leftdigits := d_exp d + len in
  let dotplace :=
    if (d_exp d <=? 0) && (-6 <? leftdigits) then leftdigits else 1 in
  let intpart :=
    if dotplace <=? 0 then "0"
    else if len <=? dotplace then digits +:+ zeros (Z.to_nat (dotplace - len))
    else str_take (Z.to_nat dotplace) digits in
  let fracpart :=
    if dotplace <=? 0 then "." +:+ zeros (Z.to_nat (- dotplace)) +:+ digits
    else if len <=? dotplace then ""
    else "." +:+ str_drop (Z.to_nat dotplace) digits in
  let exp :=
    if leftdigits =? dotplace then ""
    else "E" +:+ str_signed (leftdigits - dotplace) in
  intpart +:+ fracpart +:+ exp.

(** Splitting at the first character that satisfies [p]: the text before
    it and, when there is one, the text after it. *)
Fixpoint split_at (p : ascii → bool) (s : string) : string * option string :=
  match s with
  | EmptyString => ("", None)
  | String c s' =>
      if p c then ("", Some s')
      else let '(a, b) := split_at p s' in (String c a, b)
  end.

Definition is_dot (c : ascii) : bool := bool_decide (c = "."%char).
Definition is_e (c : ascii) : bool :=
  bool_decide (c = "e"%char) || bool_decide (c = "E"%char).

(** The exponent field of a numeric string: an optional sign and at least
    one digit. *)
Definition parse_exponent (s : string) : option Z :=
  match s with
  | EmptyString => None
  | String c s' =>
      if bool_decide (c = "-"%char) then
        match s' with
        | EmptyString => None
        | _ => n ← int_digits s' 0; Some (- Z.of_N n)
        end
      else if bool_decide (c = "+"%char) then
        match s' with
        | EmptyString => None
        | _ => n ← int_digits s' 0; Some (Z.of_N n)
        end
      else n ← int_digits s 0; Some (Z.of_N n)
  end.

(** [Decimal(s)] for an unsigned numeric string: digits, then optionally a
    point and digits, then optionally E, a sign and digits, with at least
    one digit in the coefficient; [None] stands for
    [decimal.InvalidOperation].  Signs, special values, surrounding blanks
    and underscores, which the string of a positive finite float never
    has, are outside the fragment. *)
Definition Decimal_of_str (s : string) : option Decimal :=
  let '(mantissa, e) := split_at is_e s in
  let '(intpart, frac) := split_at is_dot mantissa in
  let fracpart := default "" frac in
  match intpart +:+ fracpart with
  | EmptyString => None
  | digits =>
      n ← int_digits digits 0;
      x ← match e with None => Some 0 | Some es => parse_exponent es end;
      Some {| d_int := n; d_exp := x - Z.of_nat (String.length fracpart) |}
  end.

(** A [decimal.Decimal] value: a finite number or one of the two special
    values that the text of a float can denote. *)
Inductive PyDecimal : Type :=
| DNum (d : Decimal)
| DInf                                  (* Decimal('Infinity') *)
| DNaN.                                 (* Decimal('NaN') *)

(** [Decimal(s)] for the text of a float that is not below 0. *)
Definition Decimal_of_repr (s : string) : option PyDecimal :=
  if bool_decide (s = "inf") then Some DInf
  else if bool_decide (s = "nan") then Some DNaN
  else DNum <$> Decimal_of_str s.

(** ** [float]

    A finite Python float is represented by the decimal number that its
    [repr] prints: the shortest digit string that rounds to it (without
    trailing zeros unless it is 0), its power of ten and its sign.  A
    [graphene.Float] can also be an infinity or the value that is not a
    number.  Comparison with 0 and [str] are the only operations the
    handlers apply to a float. *)

Inductive PyFloat : Type :=
| Finite (neg : bool) (digits : N) (exp : Z)
| Inf (neg : bool)
| NaN.

Definition is_finite (x : PyFloat) : bool :=
  match x with Finite _ _ _ => true | _ => false end.

(** The sign, the digits and the power of ten of a finite float. *)
Definition f_neg (x : PyFloat) : bool :=
  match x with Finite neg _ _ | Inf neg => neg | NaN => false end.
Definition f_digits (x : PyFloat) : N :=
  match x with Finite _ digits _ => digits | _ => 0%N end.
Definition f_exp (x : PyFloat) : Z :=
  match x with Finite _ _ exp => exp | _ => 0 end.

(** [x <= 0]: every comparison with the value that is not a number is
    false. *)
Definition float_le0 (x : PyFloat) : bool :=
  match x with
  | Finite neg digits _ => neg || (digits =? 0)%N
  | Inf neg => neg
  | NaN => false
  end.

(** [repr] of a finite float: fixed notation when the decimal point falls
    within (-4, 16], scientific notation with a two-digit exponent
    otherwise. *)
Definition finite_str (neg : bool) (n : N) (exp : Z) : string :=
  let digits := str_N n in
  let len := Z.of_nat (String.length digits) in
  let decpt := len + exp in
  let body :=
    if (decpt <=? -4) || (16 <? decpt) then
      let e := decpt - 1 in
      let es := str_N (Z.abs_N e) in
      str_take 1 digits
      +:+ (if 1 <? len then "." +:+ str_drop 1 digits else "")
      +:+ "e" +:+ (if e <? 0 then "-" else "+")
      +:+ (if (String.length es <? 2)%nat then "0" +:+ es else es)
    else if decpt <=? 0 then
      "0." +:+ zeros (Z.to_nat (- decpt)) +:+ digits
    else if len <=? decpt then
      digits +:+ zeros (Z.to_nat (decpt - len)) +:+ ".0"
    else
      str_take (Z.to_nat decpt) digits +:+ "." +:+ str_drop (Z.to_nat decpt) digits
  in
  (if neg then "-" else "") +:+ body.

(** [str(x)] = [repr(x)] *)
Definition float_str (x : PyFloat) : string :=
  match x with
  | Finite neg digits exp => finite_str neg digits exp
  | Inf neg => if neg then "-inf" else "inf"
  | NaN => "nan"
  end.

(** ** Exceptions

    The text of a message is kept symbolic where the program builds it
    with [str(e)] or an f-string around it.  Where it joins the items of a
    set, the items are kept as a set: Python does not fix the order in
    which a set yields them. *)

Inductive pyexc : Type :=
| ValidationError (message : pystr)     (* django.core.exceptions *)
| DoesNotExist                          (* Model.DoesNotExist *)
| ValueError (value : string)           (* a key that is not a number *)
| InvalidOperation                      (* decimal.InvalidOperation *)
| DatabaseError (detail : string)       (* raised by the store backend *)
| TransactionManagementError            (* query in a broken transaction *)
| AttributeError (name : string)        (* an attribute of [None] *)
| TypeError                             (* a [None] where a value is needed *)
with pystr : Type :=
| Text (s : string)
| StrOf (e : pyexc)                     (* str(e) *)
| Concat (a b : pystr)                  (* the pieces of an f-string *)
| Invalid (value : string)              (* Django: not a decimal number *)
| Join (sep : string) (items : gset string).    (* sep.join(items) *)

(** [isinstance(e, ValidationError)] *)
Definition is_ValidationError (e : pyexc) : bool :=
  match e with ValidationError _ => true | _ => false end.

Inductive outcome (A : Type) : Type :=
| Return (a : A)
| Raise (e : pyexc).
Arguments Return {A} a.
Arguments Raise {A} e.

(** ** The entity store

    The model classes of [crm/models.py] are not part of the sources; the
    rows below follow the data model of the specification.  Creation
    timestamps are filled in by the store from its clock; of these only
    the date of an order is kept. *)

(** A point in time ([graphene.DateTime]), as a number. *)
Definition DateTime : Type := Z.

(** Modelled from the spec: the model class [Customer] of [crm/models.py].
    Name, email and optional phone.  Email uniqueness is checked by the
    handler and is not enforced by the store. *)
Record CustomerRow : Type :=
  { c_name : string; c_email : string; c_phone : option text }.

(** Modelled from the spec: the model class [Product] of [crm/models.py].
    Name, non-negative decimal price and integer stock. *)
Record ProductRow : Type :=
  { p_name : string; p_price : Decimal; p_stock : Z }.

(** Modelled from the spec: the model class [Order] of [crm/models.py].
    The key of its customer, the decimal total and the order date, which
    is the time of creation when the order is created without one; its
    products are in the relation table of the store. *)
Record OrderRow : Type :=
  { o_customer : Z; o_total_amount : Decimal; o_order_date : DateTime }.

(** A model instance: the primary key and the column values. *)
Definition Customer : Type := Z * CustomerRow.
Definition Product : Type := Z * ProductRow.
Definition Order : Type := Z * OrderRow.

(** Modelled from the spec: the tables behind the three model classes of
    [crm/models.py] and the many-to-many relation between orders and
    products.  A table maps primary keys to rows.  [clock] is the time a
    row created now is stamped with. *)
Record Store : Type :=
  { customers : gmap Z CustomerRow;
    products : gmap Z ProductRow;
    orders : gmap Z OrderRow;
    order_products : gmap Z (gset Z);
    clock : DateTime }.

(** The key given to a new row: one past the largest key of the table. *)
Definition next_pk {A : Type} (t : gmap Z A) : Z :=
  1 + map_fold (λ k _ acc, Z.max k acc) 0 t.

(** ** The database connection and [transaction.atomic]

    [faults] is the fate of the statements still to be sent to the
    backend, in order: [Some detail] makes the statement raise
    [DatabaseError detail], [None] (or no entry) lets it execute.  Inside
    an atomic block a failed statement marks the transaction for rollback
    ([needs_rollback]); until the block ends every further statement is
    refused with [TransactionManagementError]. *)

Record Conn : Type :=
  { db : Store;
    faults : list (option string);
    in_atomic : bool;
    needs_rollback : bool }.

Definition M (A : Type) : Type := Conn → outcome A * Conn.

Definition ret {A : Type} (a : A) : M A := λ c, (Return a, c).

Definition raise {A : Type} (e : pyexc) : M A := λ c, (Raise e, c).

Definition bind {A B : Type} (m : M A) (k : A → M B) : M B := λ c,
  match m c with
  | (Return a, c') => k a c'
  | (Raise e, c') => (Raise e, c')
  end.

(** [try: m  except Exception as e: handler(e)] *)
Definition try_except {A : Type} (m : M A) (handler : pyexc → M A) : M A :=
  λ c,
  match m c with
  | (Return a, c') => (Return a, c')
  | (Raise e, c') => handler e c'
  end.

Global Instance M_ret : MRet M := @ret.
Global Instance M_bind : MBind M := λ A B k m, bind m k.

Definition with_db (c : Conn) (s : Store) (fs : list (option string)) : Conn :=
  {| db := s; faults := fs; in_atomic := in_atomic c;
     needs_rollback := needs_rollback c |}.

(** One statement sent to the backend; [f] is what it does to the store
    when it executes. *)
Definition execute {A : Type} (f : Store → outcome A * Store) : M A := λ c,
  if needs_rollback c then (Raise TransactionManagementError, c)
  else
    match faults c with
    | Some detail :: fs =>
        (Raise (DatabaseError detail),
         {| db := db c; faults := fs; in_atomic := in_atomic c;
            needs_rollback := in_atomic c |})
    | None :: fs => let '(r, s) := f (db c) in (r, with_db c s fs)
    | [] => let '(r, s) := f (db c) in (r, with_db c s [])
    end.

(** [with transaction.atomic(): body], outermost block (the handlers do not
    nest blocks).  The writes of the body are kept when it ends normally in
    a transaction that is not marked for rollback; they are undone when an
    exception leaves the block and when the transaction is marked. *)
Definition atomic {A : Type} (body : M A) : M A := λ c,
  let begin := {| db := db c; faults := faults c; in_atomic := true;
                  needs_rollback := false |} in
  match body begin with
  | (Return a, c') =>
      (Return a,
       {| db := if needs_rollback c' then db c else db c';
          faults := faults c'; in_atomic := false; needs_rollback := false |})
  | (Raise e, c') =>
      (Raise e,
       {| db := db c; faults := faults c'; in_atomic := false;
          needs_rollback := false |})
  end.

(** A handler runs on a fresh connection in autocommit mode; what the
    caller sees is the outcome and the store afterwards. *)
Definition run {A : Type} (m : M A) (s : Store) (fs : list (option string))
    : outcome A * Store :=
  let '(r, c) := m {| db := s; faults := fs; in_atomic := false;
                      needs_rollback := false |} in
  (r, db c).

(** The next [n] statements execute: there is no fault among the first
    [n] entries of the schedule. *)
Definition quiet (n : nat) (fs : list (option string)) : bool :=
  forallb (λ f : option string, bool_decide (f = None)) (take n fs).

(** ** Manager operations ([Model.objects]) *)

Definition set_customers (s : Store) (t : gmap Z CustomerRow) : Store :=
  {| customers := t; products := products s; orders := orders s;
     order_products := order_products s; clock := clock s |}.

Definition set_products (s : Store) (t : gmap Z ProductRow) : Store :=
  {| customers := customers s; products := t; orders := orders s;
     order_products := order_products s; clock := clock s |}.

Definition set_orders (s : Store) (t : gmap Z OrderRow) : Store :=
  {| customers := customers s; products := products s; orders := t;
     order_products := order_products s; clock := clock s |}.

Definition set_order_products (s : Store) (t : gmap Z (gset Z)) : Store :=
  {| customers := customers s; products := products s; orders := orders s;
     order_products := t; clock := clock s |}.

(** The same tables at another time. *)
Definition set_clock (s : Store) (now : DateTime) : Store :=
  {| customers := customers s; products := products s; orders := orders s;
     order_products := order_products s; clock := now |}.

(** [Customer.objects.filter(email=email).exists()] *)
Definition Customer_email_exists (email : string) : M bool :=
  execute (λ s,
    (Return (existsb (λ kr : Z * CustomerRow, bool_decide (c_email kr.2 = email))
               (map_to_list (customers s))), s)).

(** [Customer.objects.create(name=..., email=..., phone=...)] *)
Definition Customer_create (row : CustomerRow) : M Customer :=
  execute (λ s,
    let k := next_pk (customers s) in
    (Return (k, row), set_customers s (<[k := row]> (customers s)))).

(** [Product.objects.create(name=..., price=..., stock=...)].  The price
    column is a decimal field: preparing the insert, Django's
    [DecimalField.to_python] (4.2 and later) refuses a value that is not
    finite with a [ValidationError], and no statement is sent. *)
Definition Product_create (name : string) (price : PyDecimal) (stock : Z)
    : M Product :=
  match price with
  | DNum d =>
      let row := {| p_name := name; p_price := d; p_stock := stock |} in
      execute (λ s,
        let k := next_pk (products s) in
        (Return (k, row), set_products s (<[k := row]> (products s))))
  | DInf => raise (ValidationError (Invalid "Infinity"))
  | DNaN => raise (ValidationError (Invalid "NaN"))
  end.

(** [Order.objects.create(customer=..., total_amount=..., order_date=...)];
    the new order has no product yet.  Modelled from the spec: an order
    created without a date gets the time of its creation. *)
Definition Order_create (customer : Z) (total_amount : Decimal)
    (order_date : option DateTime) : M Order :=
  execute (λ s,
    let k := next_pk (orders s) in
    let row := {| o_customer := customer; o_total_amount := total_amount;
                  o_order_date := default (clock s) order_date |} in
    (Return (k, row), set_orders s (<[k := row]> (orders s)))).

(** [order.products.set(products)] *)
Definition Order_products_set (order : Order) (ps : list Product) : M unit :=
  execute (λ s,
    (Return (),
     set_order_products s
       (<[order.1 := list_to_set (fst <$> ps)]> (order_products s)))).

(** [order.save()] *)
Definition Order_save (order : Order) : M unit :=
  execute (λ s,
    (Return (), set_orders s (<[order.1 := order.2]> (orders s)))).

(** Keys arrive as text ([graphene.ID]); the key field converts each one
    with [to_python] before the query is built and raises [ValueError] for
    a text it does not accept.  Which texts it accepts plays no role below,
    so the conversion is a parameter of the two lookups. *)

(** [Customer.objects.get(pk=id)] *)
Definition Customer_get (to_python : string → option Z) (id : string)
    : M Customer :=
  match to_python id with
  | None => raise (ValueError id)
  | Some k =>
      execute (λ s,
        (match customers s !! k with
         | Some row => Return (k, row)
         | None => Raise DoesNotExist
         end, s))
  end.

(** The first text of [ids] that [to_python] rejects, or all the keys.
    An id that is [None] is left as it is by the conversion and is dropped
    when the lookup is built: it has no key. *)
Fixpoint prepare_keys (to_python : string → option Z)
    (ids : list (option string)) : string + list Z :=
  match ids with
  | [] => inr []
  | None :: ids' => prepare_keys to_python ids'
  | Some id :: ids' =>
      match to_python id with
      | None => inl id
      | Some k =>
          match prepare_keys to_python ids' with
          | inl bad => inl bad
          | inr ks => inr (k :: ks)
          end
      end
  end.

(** The rows of a table whose key is among [ks], each once, in the order
    of the table. *)
Definition fetch {A : Type} (t : gmap Z A) (ks : list Z) : list (Z * A) :=
  filter (λ kr : Z * A, kr.1 ∈ ks) (map_to_list t).

(** [Product.objects.filter(id__in=ids)], evaluated (by [len]).  When no
    key is left the result is empty and no statement is sent. *)
Definition Product_filter_in (to_python : string → option Z)
    (ids : list (option string)) : M (list Product) :=
  match prepare_keys to_python ids with
  | inl bad => raise (ValueError bad)
  | inr [] => ret []
  | inr ks => execute (λ s, (Return (fetch (products s) ks), s))
  end.

(** ** Mutation handlers *)

Record CustomerInput : Type :=
  { ci_name : string; ci_email : string; ci_phone : option text }.

(** [stock] is a nullable [Int] with the default 0: it is [None] when the
    request gives null for it. *)
Record ProductInput : Type :=
  { pi_name : string; pi_price : PyFloat; pi_stock : option Z }.

(** The elements of [product_ids], a [graphene.List(graphene.ID)], may be
    null. *)
Record OrderInput : Type :=
  { oi_customer_id : string;
    oi_product_ids : list (option string);
    oi_order_date : option DateTime }.

(** The keyword arguments [name=input.name, email=input.email,
    phone=input.phone] of [Customer.objects.create]. *)
Definition customer_row (input : CustomerInput) : CustomerRow :=
  {| c_name := ci_name input; c_email := ci_email input;
     c_phone := ci_phone input |}.

Module CreateCustomer.
Import Re.

Record t : Type := { customer : Customer; message : string }.

(** r'^\+?1?\d{9,15}$|^\d{3}-\d{3}-\d{4}$' *)
Definition pattern : regex :=
  Alt
    (Seq Bol (Seq (Opt (Lit (chr "+"))) (Seq (Opt (Lit (chr "1")))
      (Seq (Rep Digit 9 15) Eol))))
    (Seq Bol (Seq (Rep Digit 3 3) (Seq (Lit (chr "-"))
      (Seq (Rep Digit 3 3) (Seq (Lit (chr "-")) (Seq (Rep Digit 4 4) Eol)))))).

(** [validate_phone]; [None] is an absent phone. *)
Definition validate_phone (phone : option text) : bool :=
  match phone with
  | None => true
  | Some [] => true
  | Some p => matches pattern p
  end.

Definition mutate (input : CustomerInput) : M t :=
  if negb (validate_phone (ci_phone input)) then
    raise (ValidationError (Text "Invalid phone number format"))
  else
    try_except
      (dup ← Customer_email_exists (ci_email input);
       if dup : bool then raise (ValidationError (Text "Email already exists"))
       else
         customer ← Customer_create (customer_row input);
         ret {| customer := customer;
                message := "Customer created successfully" |})
      (λ e,
        if is_ValidationError e then raise (ValidationError (StrOf e))
        else raise (ValidationError
                      (Concat (Text "Error creating customer: ") (StrOf e)))).

End CreateCustomer.

Module BulkCreateCustomers.

Record t : Type := { customers : list Customer; errors : list pystr }.

(** f"Invalid phone number for {customer_data.name}" *)
Definition invalid_phone_error (customer_data : CustomerInput) : pystr :=
  Text ("Invalid phone number for " +:+ ci_name customer_data).

(** f"Error creating customer {customer_data.name}: {str(e)}" *)
Definition creation_error (customer_data : CustomerInput) (e : pyexc) : pystr :=
  Concat (Text ("Error creating customer " +:+ ci_name customer_data +:+ ": "))
         (StrOf e).

(** The [for] loop; [customers] and [errors] are the two lists built so
    far.  The elements of a [graphene.List(CustomerInput)] may be null:
    for [None] the body raises at [customer_data.phone], and the handler,
    which formats [customer_data.name], raises in its turn; nothing
    catches that second exception. *)
Fixpoint loop (input : list (option CustomerInput))
    (customers : list Customer) (errors : list pystr)
    : M (list Customer * list pystr) :=
  match input with
  | [] => ret (customers, errors)
  | customer_data :: rest =>
      acc ← try_except
        (match customer_data with
         | None => raise (AttributeError "phone")
         | Some record =>
             if negb (CreateCustomer.validate_phone (ci_phone record)) then
               ret (customers, errors ++ [invalid_phone_error record])
             else
               customer ← Customer_create (customer_row record);
               ret (customers ++ [customer], errors)
         end)
        (λ e,
           match customer_data with
           | None => raise (AttributeError "name")
           | Some record =>
               ret (customers, errors ++ [creation_error record e])
           end);
      loop rest acc.1 acc.2
  end.

Definition mutate (input : list (option CustomerInput)) : M t :=
  acc ← atomic (loop input [] []);
  ret {| customers := acc.1; errors := acc.2 |}.

End BulkCreateCustomers.

Module CreateProduct.

Record t : Type := { product : Product }.

(** [None < 0] raises [TypeError], outside the [try]. *)
Definition mutate (input : ProductInput) : M t :=
  if float_le0 (pi_price input) then
    raise (ValidationError (Text "Price must be positive"))
  else
    match pi_stock input with
    | None => raise TypeError
    | Some stock =>
        if stock <? 0 then
          raise (ValidationError (Text "Stock cannot be negative"))
        else
          try_except
            (match Decimal_of_repr (float_str (pi_price input)) with
             | None => raise InvalidOperation
             | Some price =>
                 product ← Product_create (pi_name input) price stock;
                 ret {| product := product |}
             end)
            (λ e,
              if is_ValidationError e then raise (ValidationError (StrOf e))
              else raise e)
    end.

End CreateProduct.

(** [ProductType.resolve_price] *)
Definition resolve_price (self : Product) : string :=
  Decimal_str (p_price self.2).

(** [OrderType.resolve_total_amount] *)
Definition resolve_total_amount (self : Order) : string :=
  Decimal_str (o_total_amount self.2).

Module CreateOrder.

Record t : Type := { order : Order; message : string }.

(** [set(product_ids) - set(str(p.id) for p in products)] *)
Definition missing_products (product_ids : list (option string))
    (ps : list Product) : gset (option string) :=
  list_to_set product_ids
  ∖ list_to_set ((λ p : Product, Some (str_Z p.1)) <$> ps).

(** [sep.join(items)] for a set: [TypeError] when an item is [None]. *)
Definition join_set (sep : string) (items : gset (option string))
    : outcome pystr :=
  if bool_decide (None ∈ items) then Raise TypeError
  else Return (Join sep (set_omap id items)).

Section mutate.
Variable to_python : string → option Z.

Definition mutate (input : OrderInput) : M t :=
  try_except
    (customer ← try_except (Customer_get to_python (oi_customer_id input))
        (λ e, match e with
              | DoesNotExist =>
                  raise (ValidationError (Text "Customer not found"))
              | _ => raise e
              end);
     match oi_product_ids input with
     | [] => raise (ValidationError (Text "At least one product is required"))
     | _ =>
         ps ← Product_filter_in to_python (oi_product_ids input);
         if negb (List.length ps =? List.length (oi_product_ids input))%nat then
           match join_set ", " (missing_products (oi_product_ids input) ps) with
           | Raise e => raise e
           | Return names =>
               raise (ValidationError
                        (Concat (Text "Products not found: ") names))
           end
         else
           order ← atomic
             (order ← Order_create customer.1 Decimal_zero
                        (oi_order_date input);
              Order_products_set order ps;;
              let total := dec_sum ((λ p : Product, p_price p.2) <$> ps) in
              let order : Order :=
                (order.1, {| o_customer := o_customer order.2;
                             o_total_amount := total;
                             o_order_date := o_order_date order.2 |}) in
              Order_save order;;
              ret order);
           ret {| order := order; message := "Order created successfully" |}
     end)
    (λ e,
      if is_ValidationError e then raise (ValidationError (StrOf e))
      else raise (ValidationError
                    (Concat (Text "Error creating order: ") (StrOf e)))).

End mutate.
End CreateOrder.


(** A customer with this email is in the store. *)
Definition email_taken (s : Store) (email : string) : Prop :=
  ∃ k row, customers s !! k = Some row ∧ c_email row = email.

(** The products of the store whose key one of the requested ids denotes,
    in the order of the table. *)
Definition requested_products (to_python : string → option Z)
    (ids : list (option string)) (s : Store) : list Product :=
  filter (λ kr : Z * ProductRow,
            Exists (λ id, id ≫= to_python = Some kr.1) ids)
    (map_to_list (products s)).

(** Two of the requested ids, at different places of the list, denote the
    same key. *)
Definition same_key_twice (to_python : string → option Z)
    (ids : list (option string)) : Prop :=
  ∃ (i j : nat) (a b : string) (k : Z),
    i ≠ j ∧ ids !! i = Some (Some a) ∧ ids !! j = Some (Some b)
    ∧ to_python a = Some k ∧ to_python b = Some k.

(** ** Queries

    The two remaining single-row lookups and the three listings behind the
    resolvers of [Query]. *)

(** [Product.objects.get(pk=id)] *)
Definition Product_get (to_python : string → option Z) (id : string)
    : M Product :=
  match to_python id with
  | None => raise (ValueError id)
  | Some k =>
      execute (λ s,
        (match products s !! k with
         | Some row => Return (k, row)
         | None => Raise DoesNotExist
         end, s))
  end.

(** [Order.objects.get(pk=id)] *)
Definition Order_get (to_python : string → option Z) (id : string)
    : M Order :=
  match to_python id with
  | None => raise (ValueError id)
  | Some k =>
      execute (λ s,
        (match orders s !! k with
         | Some row => Return (k, row)
         | None => Raise DoesNotExist
         end, s))
  end.

(** [Customer.objects.all()], [Product.objects.all()] and
    [Order.objects.all()], evaluated: every row of the table, each once.
    The order of the rows is left to the store; nothing below depends on
    it. *)
Definition Customer_all : M (list Customer) :=
  execute (λ s, (Return (map_to_list (customers s)), s)).

Definition Product_all : M (list Product) :=
  execute (λ s, (Return (map_to_list (products s)), s)).

Definition Order_all : M (list Order) :=
  execute (λ s, (Return (map_to_list (orders s)), s)).

Module Query.

Definition resolve_customers : M (list Customer) := Customer_all.

Definition resolve_products : M (list Product) := Product_all.

Definition resolve_orders : M (list Order) := Order_all.

Section resolvers.
Variable to_python : string → option Z.

(** The three resolvers with an [id] argument; [None] is Python's
    [None]. *)
Definition resolve_customer (id : string) : M (option Customer) :=
  try_except
    (customer ← Customer_get to_python id; ret (Some customer))
    (λ e, match e with
          | DoesNotExist => ret None
          | _ => raise e
          end).

Definition resolve_product (id : string) : M (option Product) :=
  try_except
    (product ← Product_get to_python id; ret (Some product))
    (λ e, match e with
          | DoesNotExist => ret None
          | _ => raise e
          end).

Definition resolve_order (id : string) : M (option Order) :=
  try_except
    (order ← Order_get to_python id; ret (Some order))
    (λ e, match e with
          | DoesNotExist => ret None
          | _ => raise e
          end).

End resolvers.
End Query.

(** ** Conditions on a store *)

(** No two customers have the same email. *)
Definition unique_emails (s : Store) : Prop :=
  ∀ k1 k2 r1 r2,
    customers s !! k1 = Some r1 → customers s !! k2 = Some r2 →
    c_email r1 = c_email r2 → k1 = k2.

(** Every order belongs to a customer of the store, and the relation
    between orders and products only links orders and products of the
    store. *)
Definition references_resolve (s : Store) : Prop :=
  (∀ ko row, orders s !! ko = Some row →
     is_Some (customers s !! o_customer row))
  ∧ (∀ ko assoc, order_products s !! ko = Some assoc →
       is_Some (orders s !! ko)
       ∧ ∀ kp, kp ∈ assoc → is_Some (products s !! kp)).

(** Every row and every link of [s] is in [s'], unchanged. *)
Definition only_adds (s s' : Store) : Prop :=
  customers s ⊆ customers s' ∧ products s ⊆ products s'
  ∧ orders s ⊆ orders s' ∧ order_products s ⊆ order_products s'.

(** The number of records of a batch whose phone is accepted: the number
    of rows the batch tries to insert. *)
Definition valid_records (input : list CustomerInput) : nat :=
  List.length
    (filter (λ r, CreateCustomer.validate_phone (ci_phone r) = true) input).

(** ** The accepted phone formats, in the words of the specification *)

(** An optional ['+'], an optional ['1'], then 9 to 15 decimal digits, of
    any script. *)
Definition international_format (s : text) : Prop :=
  ∃ plus one ds : text,
    s = plus ++ one ++ ds ∧
    (plus = [] ∨ plus = [chr "+"]) ∧ (one = [] ∨ one = [chr "1"]) ∧
    all_decimal ds = true ∧
    (9 ≤ List.length ds)%nat ∧ (List.length ds ≤ 15)%nat.

(** NNN-NNN-NNNN, each N a decimal digit. *)
Definition dashed_format (s : text) : Prop :=
  ∃ a b c : text,
    s = a ++ [chr "-"] ++ b ++ [chr "-"] ++ c ∧
    all_decimal a = true ∧ List.length a = 3%nat ∧
    all_decimal b = true ∧ List.length b = 3%nat ∧
    all_decimal c = true ∧ List.length c = 4%nat.

Definition phone_format (s : text) : Prop :=
  international_format s ∨ dashed_format s.

(** What may follow the phone where the pattern ends with [$]. *)
Definition line_end (rest : text) : Prop :=
  rest = [] ∨ rest = [newline].

(** A necessary condition of both formats: only digits, ['+'] and ['-']. *)
Definition phone_chars (s : text) : bool :=
  forallb (λ c, is_decimal c || bool_decide (c = chr "+")
                || bool_decide (c = chr "-")) s.

(** ** A small shop, used in the examples *)

(** The conversion of an integer key on plain decimal numerals, where it is
    [int(id)]. *)
Definition int_of_numeral (id : string) : option Z :=
  match id with
  | EmptyString => None
  | _ => n ← int_digits id 0; Some (Z.of_N n)
  end.

Definition alice : CustomerRow :=
  {| c_name := "Alice"; c_email := "alice@example.org"; c_phone := None |}.

(** P1, price 10.00, and P2, price 5.50. *)
Definition pen : ProductRow :=
  {| p_name := "Pen"; p_price := {| d_int := 1000; d_exp := -2 |};
     p_stock := 3 |}.

Definition ink : ProductRow :=
  {| p_name := "Ink"; p_price := {| d_int := 550; d_exp := -2 |};
     p_stock := 7 |}.

(** The shop on 14 November 2023. *)
Definition shop : Store :=
  {| customers := {[ 1 := alice ]};
     products := {[ 1 := pen; 2 := ink ]};
     orders := ∅;
     order_products := ∅;
     clock := 1700000000 |}.

Definition order_both : OrderInput :=
  {| oi_customer_id := "1"; oi_product_ids := [Some "1"; Some "2"];
     oi_order_date := None |}.

Definition order_one_missing : OrderInput :=
  {| oi_customer_id := "1"; oi_product_ids := [Some "1"; Some "99"];
     oi_order_date := None |}.

Definition order_same_twice : OrderInput :=
  {| oi_customer_id := "1"; oi_product_ids := [Some "1"; Some "1"];
     oi_order_date := None |}.

(** The pen and product 99, the pen written with a leading zero. *)
Definition order_zero_one_missing : OrderInput :=
  {| oi_customer_id := "1"; oi_product_ids := [Some "01"; Some "99"];
     oi_order_date := None |}.

(** The pen twice, written with a leading zero. *)
Definition order_zero_twice : OrderInput :=
  {| oi_customer_id := "1"; oi_product_ids := [Some "01"; Some "01"];
     oi_order_date := None |}.




Definition order_nothing : OrderInput :=
  {| oi_customer_id := "1"; oi_product_ids := []; oi_order_date := None |}.

Definition bob : CustomerInput :=
  {| ci_name := "Bob"; ci_email := "bob@example.org";
     ci_phone := Some (text_of "123-456-7890") |}.


Definition dave : CustomerInput :=
  {| ci_name := "Dave"; ci_email := "dave@example.org";
     ci_phone := Some (text_of "+12345678901") |}.

(** 9.99 *)
Definition float_9_99 : PyFloat := Finite false 999 (-2).

Definition widget : ProductInput :=
  {| pi_name := "Widget"; pi_price := float_9_99; pi_stock := Some 5 |}.

(** * Properties *)

(** ** Strings *)

Lemma str_app_cons (x : ascii) (a b : string) :
  String x a +:+ b = String x (a +:+ b).
Proof. reflexivity. Qed.

Lemma str_app_nil_l (a : string) : "" +:+ a = a.
Proof. reflexivity. Qed.

Lemma str_app_assoc (a b c : string) : (a +:+ b) +:+ c = a +:+ (b +:+ c).
Proof.
  induction a as [|x a IH]; rewrite ?str_app_nil_l, ?str_app_cons; simpl;
    congruence.
Qed.

Lemma str_app_nil_r (a : string) : a +:+ "" = a.
Proof.
  induction a as [|x a IH]; rewrite ?str_app_nil_l, ?str_app_cons; simpl;
    congruence.
Qed.

Lemma str_length_app (a b : string) :
  String.length (a +:+ b) = (String.length a + String.length b)%nat.
Proof.
  induction a as [|x a IH]; rewrite ?str_app_nil_l, ?str_app_cons; simpl;
    congruence.
Qed.

Lemma all_digits_app (a b : string) :
  all_digits (a +:+ b) = all_digits a && all_digits b.
Proof.
  induction a as [|x a IH]; rewrite ?str_app_nil_l, ?str_app_cons; simpl;
    [done |].
  by rewrite IH, andb_assoc.
Qed.

Lemma str_take_drop (n : nat) (s : string) : str_take n s +:+ str_drop n s = s.
Proof.
  revert s. induction n as [|n IH]; intros [|c s]; simpl; try done.
  all: rewrite str_app_cons; by rewrite IH.
Qed.

Lemma str_take_all (n : nat) (s : string) :
  (String.length s ≤ n)%nat → str_take n s = s.
Proof.
  revert s. induction n as [|n IH]; intros [|c s]; simpl; try done; try lia.
  intros Hlen. f_equal. apply IH. lia.
Qed.

Lemma str_drop_length (n : nat) (s : string) :
  String.length (str_drop n s) = (String.length s - n)%nat.
Proof.
  revert s. induction n as [|n IH]; intros [|c s]; simpl; try done.
  all: by rewrite IH.
Qed.

Lemma all_digits_take (n : nat) (s : string) :
  all_digits s = true → all_digits (str_take n s) = true.
Proof.
  revert s. induction n as [|n IH]; intros [|c s]; simpl; try done.
  all: intros [-> Hs]%andb_true_iff; by apply IH.
Qed.

Lemma all_digits_drop (n : nat) (s : string) :
  all_digits s = true → all_digits (str_drop n s) = true.
Proof.
  revert s. induction n as [|n IH]; intros [|c s]; simpl; try done.
  all: intros [_ Hs]%andb_true_iff; by apply IH.
Qed.

Lemma zeros_length (k : nat) : String.length (zeros k) = k.
Proof. induction k; simpl; [done|]. by rewrite IHk. Qed.

Lemma all_digits_zeros (k : nat) : all_digits (zeros k) = true.
Proof. induction k; simpl; [done|]. by rewrite IHk. Qed.

(** ** Numbers as text *)

Lemma str_N_go_length_ge (fuel : nat) (n : N) (acc : string) :
  (String.length acc ≤ String.length (str_N_go fuel n acc))%nat.
Proof.
  revert n acc. induction fuel as [|fuel IH]; intros n acc; simpl; [done|].
  destruct (n <? 10)%N; simpl; [lia|].
  etrans; [|apply IH]. simpl. lia.
Qed.

Lemma str_N_go_length_gt (fuel : nat) (n : N) (acc : string) :
  (S (String.length acc) ≤ String.length (str_N_go (S fuel) n acc))%nat.
Proof.
  simpl. destruct (n <? 10)%N; simpl; [lia|].
  etrans; [|apply str_N_go_length_ge]. simpl. lia.
Qed.


Lemma str_N_fuel (n : N) : (n < 2 ^ N.of_nat (S (N.to_nat (N.log2 n))))%N.
Proof.
  rewrite Nat2N.inj_succ, N2Nat.id.
  destruct (decide (n = 0%N)) as [->|Hn]; [done|].
  apply N.log2_spec. lia.
Qed.


Lemma ndigits_pos (n : N) : (1 ≤ ndigits n)%nat.
Proof. unfold ndigits, str_N. apply (str_N_go_length_gt _ n ""). Qed.


Lemma digit_char_is_digit (d : N) : (d < 10)%N → is_digit (digit_char d) = true.
Proof.
  intros Hd. assert (d ∈ [0;1;2;3;4;5;6;7;8;9]%N) as Hin.
  { rewrite !elem_of_cons. lia. }
  rewrite !elem_of_cons in Hin.
  destruct Hin as [->|[->|[->|[->|[->|[->|[->|[->|[->|[->|[]%elem_of_nil]]]]]]]]]];
    reflexivity.
Qed.

Lemma digit_val_char (d : N) : (d < 10)%N → digit_val (digit_char d) = d.
Proof.
  intros Hd. assert (d ∈ [0;1;2;3;4;5;6;7;8;9]%N) as Hin.
  { rewrite !elem_of_cons. lia. }
  rewrite !elem_of_cons in Hin.
  destruct Hin as [->|[->|[->|[->|[->|[->|[->|[->|[->|[->|[]%elem_of_nil]]]]]]]]]];
    reflexivity.
Qed.

Lemma int_digits_str_N_go (fuel : nat) :
  ∀ (n : N) (acc : string),
  (n < 2 ^ N.of_nat fuel)%N →
  int_digits (str_N_go fuel n acc) 0 = int_digits acc n.
Proof.
  induction fuel as [|fuel IH]; intros n acc Hn.
  - simpl in *. by assert (n = 0%N) as -> by lia.
  - pose proof (N.mod_lt n 10 ltac:(lia)) as Hmod.
    pose proof (N.div_mod n 10 ltac:(lia)) as Hdm.
    simpl str_N_go. destruct (n <? 10)%N eqn:Hlt.
    + apply N.ltb_lt in Hlt. rewrite N.mod_small by done.
      simpl. rewrite digit_char_is_digit, digit_val_char by done.
      f_equal; lia.
    + rewrite IH.
      * simpl. rewrite digit_char_is_digit, digit_val_char by done.
        f_equal; lia.
      * apply N.Div0.div_lt_upper_bound.
        rewrite Nat2N.inj_succ, N.pow_succ_r' in Hn. lia.
Qed.

(** [int(str(n)) == n] *)
Lemma int_digits_str_N (n : N) : int_digits (str_N n) 0 = Some n.
Proof. unfold str_N. rewrite int_digits_str_N_go; [done | apply str_N_fuel]. Qed.

Lemma int_digits_app (s1 s2 : string) (a : N) :
  int_digits (s1 +:+ s2) a = int_digits s1 a ≫= int_digits s2.
Proof.
  revert a. induction s1 as [|c s1 IH]; intros a;
    rewrite ?str_app_nil_l, ?str_app_cons; simpl; [done|].
  destruct (is_digit c); [apply IH | done].
Qed.

Lemma int_digits_zeros (k : nat) (a : N) :
  int_digits (zeros k) a = Some (a * 10 ^ N.of_nat k)%N.
Proof.
  revert a. induction k as [|k IH]; intros a.
  - simpl. f_equal. lia.
  - cbn [zeros int_digits]. change (is_digit "0") with true. cbv iota.
    rewrite IH. f_equal. rewrite Nat2N.inj_succ, N.pow_succ_r'.
    change (digit_val "0") with 0%N. lia.
Qed.

Lemma int_digits_leading_zeros (k : nat) (s : string) :
  int_digits (zeros k +:+ s) 0 = int_digits s 0.
Proof.
  rewrite int_digits_app, int_digits_zeros. simpl. f_equal.
Qed.

Lemma int_digits_all_digits (s : string) (a : N) :
  is_Some (int_digits s a) → all_digits s = true.
Proof.
  revert a. induction s as [|c s IH]; intros a; simpl; [done|].
  destruct (is_digit c); [apply IH | by intros [? ?]].
Qed.

Lemma all_digits_str_N (n : N) : all_digits (str_N n) = true.
Proof. apply (int_digits_all_digits _ 0). rewrite int_digits_str_N. eauto. Qed.

(** ** The phone pattern *)

Section phone.
Import Re.

(** A run of [lo] to [hi] digits, whatever follows. *)
Lemma go_rep_digit (hi lo pos : nat) (s : text) (k : nat → text → bool) :
  go (Rep Digit lo hi) pos s k = true ↔
  ∃ ds rest : text,
    s = ds ++ rest ∧ all_decimal ds = true ∧
    (lo ≤ List.length ds)%nat ∧ (List.length ds ≤ hi)%nat ∧
    k (pos + List.length ds)%nat rest = true.
Proof.
  revert lo pos s. induction hi as [|hi IH]; intros lo pos s.
  - simpl. destruct (decide (lo = 0%nat)) as [->|Hlo].
    + split.
      * intros Hk. exists [], s. simpl. rewrite Nat.add_0_r. auto with lia.
      * intros (ds & rest & -> & _ & _ & Hlen & Hk).
        destruct ds; simpl in *; [|lia]. by rewrite Nat.add_0_r in Hk.
    + split; [done|]. intros (ds & rest & _ & _ & ? & ? & _). lia.
  - change (go (Rep Digit lo (S hi)) pos s k)
      with (go Digit pos s (λ pos' s', go (Rep Digit (Nat.pred lo) hi) pos' s' k)
            || (if decide (lo = 0%nat) then k pos s else false)).
    rewrite orb_true_iff. split.
    + intros [Hstep | Hstop].
      * destruct s as [|a s]; simpl in Hstep; [done|].
        destruct (is_decimal a) eqn:Ha; [|done].
        apply IH in Hstep as (ds & rest & -> & Hds & Hlo & Hhi & Hk).
        exists (a :: ds), rest. cbn [all_decimal forallb app List.length].
        rewrite Ha. unfold all_decimal in Hds. rewrite Hds.
        replace (pos + S (List.length ds))%nat
          with (S pos + List.length ds)%nat by lia.
        repeat split; auto with lia.
      * destruct (decide (lo = 0%nat)) as [->|]; [|done].
        exists [], s. simpl. rewrite Nat.add_0_r. auto with lia.
    + intros (ds & rest & -> & Hds & Hlo & Hhi & Hk).
      destruct ds as [|a ds]; cbn [all_decimal forallb app List.length] in *.
      * right. assert (lo = 0%nat) as -> by lia. simpl.
        by rewrite Nat.add_0_r in Hk.
      * left. apply andb_true_iff in Hds as [Ha Hds]. simpl. rewrite Ha.
        apply IH. exists ds, rest.
        replace (S pos + List.length ds)%nat
          with (pos + S (List.length ds))%nat by lia.
        repeat split; auto with lia.
Qed.

(** An optional character. *)
Lemma go_opt_lit (c : N) (pos : nat) (s : text) (k : nat → text → bool) :
  go (Opt (Lit c)) pos s k = true ↔
  (∃ rest, s = c :: rest ∧ k (S pos) rest = true) ∨ k pos s = true.
Proof.
  simpl. rewrite orb_true_iff. split; (intros [H|H]; [left|by right]).
  - destruct s as [|a s]; [done|]. destruct (decide (a = c)) as [->|]; [|done].
    eauto.
  - destruct H as (rest & -> & Hk). by rewrite decide_True.
Qed.

Lemma go_lit (c : N) (pos : nat) (s : text) (k : nat → text → bool) :
  go (Lit c) pos s k = true ↔ ∃ rest, s = c :: rest ∧ k (S pos) rest = true.
Proof.
  simpl. split.
  - destruct s as [|a s]; [done|]. destruct (decide (a = c)) as [->|]; [|done].
    eauto.
  - intros (rest & -> & Hk). by rewrite decide_True.
Qed.

(** [$] followed by nothing: the rest is empty or one newline. *)
Lemma go_eol (pos : nat) (s : text) :
  go Eol pos s (λ _ _, true) = true ↔ s = [] ∨ s = [newline].
Proof.
  simpl. destruct s as [|a [|b s]].
  - split; auto.
  - destruct (decide (a = newline)) as [->|Hne]; [split; auto|].
    split; [done|]. intros [?|?]; [done | congruence].
  - split; [done|]. intros [?|?]; done.
Qed.

Lemma go_seq (r1 r2 : regex) (pos : nat) (s : text) (k : nat → text → bool) :
  go (Seq r1 r2) pos s k = go r1 pos s (λ pos' s', go r2 pos' s' k).
Proof. reflexivity. Qed.

Lemma go_bol_start (s : text) (k : nat → text → bool) :
  go Bol 0 s k = k 0%nat s.
Proof. reflexivity. Qed.

Lemma go_digits_eol (lo hi pos : nat) (s : text) :
  go (Seq (Rep Digit lo hi) Eol) pos s (λ _ _, true) = true ↔
  ∃ ds rest : text,
    s = ds ++ rest ∧ all_decimal ds = true ∧
    (lo ≤ List.length ds)%nat ∧ (List.length ds ≤ hi)%nat ∧ line_end rest.
Proof.
  rewrite go_seq, go_rep_digit.
  unfold line_end.
  split; intros (ds & rest & ? & ? & ? & ? & Hk); exists ds, rest;
    (split; [done|]; split; [done|]; split; [done|]; split; [done|]).
  - by apply (go_eol (pos + List.length ds)).
  - by apply go_eol.
Qed.

Lemma international_matches (s : text) :
  go (Seq Bol (Seq (Opt (Lit (chr "+"))) (Seq (Opt (Lit (chr "1")))
        (Seq (Rep Digit 9 15) Eol)))) 0 s (λ _ _, true) = true ↔
  ∃ core rest, s = core ++ rest ∧ line_end rest ∧ international_format core.
Proof.
  rewrite go_seq, go_bol_start, go_seq, go_opt_lit. setoid_rewrite go_seq.
  setoid_rewrite go_opt_lit. setoid_rewrite go_digits_eol.
  split.
  - intros [(r1 & -> & [(r2 & -> & H)|H]) | [(r2 & -> & H)|H]];
      destruct H as (ds & rest & -> & Hds & Hlo & Hhi & Hend).
    + exists (chr "+" :: chr "1" :: ds), rest. split; [done|]. split; [done|].
      exists [chr "+"], [chr "1"], ds. auto 10.
    + exists (chr "+" :: ds), rest. split; [done|]. split; [done|].
      exists [chr "+"], [], ds. auto 10.
    + exists (chr "1" :: ds), rest. split; [done|]. split; [done|].
      exists [], [chr "1"], ds. auto 10.
    + exists ds, rest. split; [done|]. split; [done|].
      exists [], [], ds. auto 10.
  - intros (core & rest & -> & Hend &
            plus & one & ds & -> & Hplus & Hone & Hds & Hlo & Hhi).
    destruct Hplus as [-> | ->], Hone as [-> | ->]; cbn [app].
    + right; right. exists ds, rest. auto.
    + right; left. exists (ds ++ rest). split; [done|]. exists ds, rest. auto.
    + left. exists (ds ++ rest). split; [done|]. right. exists ds, rest. auto.
    + left. exists (chr "1" :: ds ++ rest). split; [done|]. left.
      exists (ds ++ rest). split; [done|]. exists ds, rest. auto.
Qed.

Lemma dashed_matches (s : text) :
  go (Seq Bol (Seq (Rep Digit 3 3) (Seq (Lit (chr "-"))
        (Seq (Rep Digit 3 3) (Seq (Lit (chr "-")) (Seq (Rep Digit 4 4) Eol))))))
     0 s (λ _ _, true) = true ↔
  ∃ core rest, s = core ++ rest ∧ line_end rest ∧ dashed_format core.
Proof.
  rewrite go_seq, go_bol_start, go_seq, go_rep_digit.
  setoid_rewrite go_seq. setoid_rewrite go_lit.
  setoid_rewrite go_seq. setoid_rewrite go_rep_digit.
  setoid_rewrite go_seq. setoid_rewrite go_lit.
  setoid_rewrite go_digits_eol.
  split.
  - intros (a & r1 & -> & Ha & Ha1 & Ha2 & r2 & -> &
            b & r3 & -> & Hb & Hb1 & Hb2 & r4 & -> &
            c & rest & -> & Hc & Hc1 & Hc2 & Hend).
    exists (a ++ [chr "-"] ++ b ++ [chr "-"] ++ c), rest.
    split; [by rewrite <- !app_assoc|]. split; [done|].
    exists a, b, c. repeat split; auto with lia.
  - intros (core & rest & -> & Hend &
            a & b & c & -> & Ha & Ha1 & Hb & Hb1 & Hc & Hc1).
    exists a, ([chr "-"] ++ b ++ [chr "-"] ++ c ++ rest).
    split; [by rewrite <- !app_assoc|].
    split; [done|]. split; [lia|]. split; [lia|].
    exists (b ++ [chr "-"] ++ c ++ rest). split; [done|].
    exists b, ([chr "-"] ++ c ++ rest).
    split; [done|]. split; [done|]. split; [lia|]. split; [lia|].
    exists (c ++ rest). split; [done|].
    exists c, rest. repeat split; auto with lia.
Qed.

(** [re.match] with the phone pattern: one of the two formats, possibly
    followed by a single newline. *)
Lemma pattern_matches (s : text) :
  matches CreateCustomer.pattern s = true ↔
  ∃ core rest, s = core ++ rest ∧ line_end rest ∧ phone_format core.
Proof.
  unfold matches, CreateCustomer.pattern, phone_format.
  change (go (Alt ?a ?b) 0 s ?k) with (go a 0 s k || go b 0 s k).
  rewrite orb_true_iff, international_matches, dashed_matches.
  split.
  - intros [(core & rest & ? & ? & ?) | (core & rest & ? & ? & ?)];
      exists core, rest; auto.
  - intros (core & rest & ? & ? & [?|?]); [left | right];
      exists core, rest; auto.
Qed.

End phone.

Lemma phone_chars_app (a b : text) :
  phone_chars (a ++ b) = phone_chars a && phone_chars b.
Proof. apply forallb_app. Qed.

Lemma phone_chars_digits (s : text) : all_decimal s = true → phone_chars s = true.
Proof.
  unfold all_decimal, phone_chars. rewrite !forallb_forall.
  intros H c Hc. by rewrite (H c Hc).
Qed.

Lemma phone_format_chars (s : text) : phone_format s → phone_chars s = true.
Proof.
  intros [(plus & one & ds & -> & Hplus & Hone & Hds & _)
         | (a & b & c & -> & Ha & _ & Hb & _ & Hc & _)].
  - rewrite !phone_chars_app, (phone_chars_digits ds) by done.
    by destruct Hplus as [-> | ->], Hone as [-> | ->].
  - rewrite !phone_chars_app, (phone_chars_digits a), (phone_chars_digits b),
      (phone_chars_digits c) by done.
    done.
Qed.

Lemma phone_format_nonempty : ¬ phone_format [].
Proof.
  intros [(plus & one & ds & Heq & _ & _ & _ & Hlen & _)
         | (a & b & c & Heq & _ & Hlen & _)].
  - apply (f_equal List.length) in Heq. rewrite !length_app in Heq.
    simpl in Heq. lia.
  - apply (f_equal List.length) in Heq. rewrite !length_app in Heq.
    simpl in Heq. lia.
Qed.

(** C3 (amended): [validate_phone] accepts an absent phone, the empty
    phone, and exactly the phones that are in one of the two formats (an
    optional ['+'], an optional ['1'] and 9 to 15 digits, or NNN-NNN-NNNN),
    possibly followed by one newline, which [$] lets through.  A digit is
    a decimal digit of any script, which is what [\d] matches.  It is a
    function of the phone alone. *)
Theorem validate_phone_formats (phone : option text) :
  CreateCustomer.validate_phone phone = true ↔
  phone = None ∨ phone = Some [] ∨
  ∃ core : text,
    (phone = Some core ∨ phone = Some (core ++ [newline])) ∧
    phone_format core.
Proof.
  destruct phone as [p|]; [|by split; auto].
  destruct p as [|c p]; [by split; auto|].
  change (CreateCustomer.validate_phone (Some (c :: p)))
    with (Re.matches CreateCustomer.pattern (c :: p)).
  rewrite pattern_matches. split.
  - intros (core & rest & Heq & [-> | ->] & Hfmt); right; right; exists core.
    + rewrite app_nil_r in Heq. split; [left; by rewrite Heq | done].
    + split; [right; by rewrite Heq | done].
  - intros [? | [? | (core & [Heq | Heq] & Hfmt)]]; try done.
    + exists core, []. rewrite app_nil_r.
      split; [by injection Heq|]. split; [by left | done].
    + exists core, [newline].
      split; [by injection Heq|]. split; [by right | done].
Qed.

(** C3 as stated fails: a phone in the dashed format followed by a newline
    is accepted, and it is in neither format. *)
Lemma validate_phone_trailing_newline :
  ¬ (CreateCustomer.validate_phone
       (Some (text_of "123-456-7890" ++ [newline])) = true
     ↔ phone_format (text_of "123-456-7890" ++ [newline])).
Proof.
  intros [Hfmt _].
  assert (phone_chars (text_of "123-456-7890" ++ [newline]) = true) as Hchars
    by (apply phone_format_chars, Hfmt; reflexivity).
  vm_compute in Hchars. discriminate.
Qed.

(** Digits of another script: nine times the Arabic-Indic digit one
    (U+0661) is a phone. *)
Lemma validate_phone_arabic_indic :
  CreateCustomer.validate_phone (Some (replicate 9 1633%N)) = true.
Proof. vm_compute. reflexivity. Qed.

(** ** Decimal sums *)


Lemma pow10_pos (k : N) : (1 ≤ 10 ^ k)%N.
Proof. pose proof (N.pow_nonzero 10 k). lia. Qed.








(** ** [Decimal(str(x))] for a float *)

Lemma is_digit_not_e (c : ascii) : is_digit c = true → is_e c = false.
Proof.
  intros Hc. unfold is_e.
  destruct (decide (c = "e"%char)) as [->|]; [done|].
  destruct (decide (c = "E"%char)) as [->|]; [done|].
  by rewrite !bool_decide_eq_false_2.
Qed.

Lemma is_digit_not_dot (c : ascii) : is_digit c = true → is_dot c = false.
Proof.
  intros Hc. unfold is_dot.
  destruct (decide (c = "."%char)) as [->|]; [done|].
  by rewrite bool_decide_eq_false_2.
Qed.

Lemma split_at_digits (p : ascii → bool) (s rest : string) :
  (∀ c, is_digit c = true → p c = false) →
  all_digits s = true →
  split_at p (s +:+ rest) =
    ((s +:+ (split_at p rest).1), (split_at p rest).2).
Proof.
  intros Hp. induction s as [|c s IH]; rewrite ?str_app_nil_l, ?str_app_cons.
  - intros _. by destruct (split_at p rest).
  - simpl. intros [Hc Hs]%andb_true_iff. rewrite (Hp c Hc), (IH Hs).
    reflexivity.
Qed.

Lemma split_at_digits_only (p : ascii → bool) (s : string) :
  (∀ c, is_digit c = true → p c = false) →
  all_digits s = true → split_at p s = (s, None).
Proof.
  intros Hp Hs. rewrite <- (str_app_nil_r s) at 1.
  rewrite split_at_digits by done. simpl. by rewrite str_app_nil_r.
Qed.

Lemma split_e_mantissa (ip fp : string) (tail : string) :
  all_digits ip = true → all_digits fp = true →
  split_at is_e (ip +:+ "." +:+ fp +:+ tail) =
    (ip +:+ "." +:+ fp +:+ (split_at is_e tail).1, (split_at is_e tail).2).
Proof.
  intros Hip Hfp.
  rewrite (split_at_digits is_e ip) by (done || apply is_digit_not_e).
  change ("." +:+ fp +:+ tail) with (String "." (fp +:+ tail)).
  cbn [split_at]. change (is_e ".") with false. cbv iota.
  rewrite (split_at_digits is_e fp) by (done || apply is_digit_not_e).
  reflexivity.
Qed.

Lemma split_dot_mantissa (ip fp : string) :
  all_digits ip = true →
  split_at is_dot (ip +:+ "." +:+ fp) = (ip, Some fp).
Proof.
  intros Hip.
  rewrite (split_at_digits is_dot ip) by (done || apply is_digit_not_dot).
  change ("." +:+ fp) with (String "." fp). cbn [split_at].
  change (is_dot ".") with true. cbv iota. simpl. by rewrite str_app_nil_r.
Qed.

(** digits [.] digits *)
Lemma Decimal_of_str_fixed (ip fp : string) :
  all_digits ip = true → all_digits fp = true → ip +:+ fp ≠ "" →
  Decimal_of_str (ip +:+ "." +:+ fp) =
    (n ← int_digits (ip +:+ fp) 0;
     Some {| d_int := n; d_exp := - Z.of_nat (String.length fp) |}).
Proof.
  intros Hip Hfp Hne. unfold Decimal_of_str.
  rewrite <- (str_app_nil_r fp) at 1.
  rewrite split_e_mantissa by done. cbn [split_at fst snd].
  rewrite !str_app_nil_r, split_dot_mantissa by done.
  cbn [default id].
  destruct (ip +:+ fp) as [|a s0] eqn:E; [done|].
  destruct (int_digits (String a s0) 0); simpl; [|done].
  do 2 f_equal.
Qed.

(** digits [.] digits [e] exponent *)
Lemma Decimal_of_str_sci_frac (ip fp es : string) :
  all_digits ip = true → all_digits fp = true → ip +:+ fp ≠ "" →
  Decimal_of_str (ip +:+ "." +:+ fp +:+ "e" +:+ es) =
    (n ← int_digits (ip +:+ fp) 0;
     x ← parse_exponent es;
     Some {| d_int := n; d_exp := x - Z.of_nat (String.length fp) |}).
Proof.
  intros Hip Hfp Hne. unfold Decimal_of_str.
  rewrite split_e_mantissa by done.
  change ("e" +:+ es) with (String "e" es). cbn [split_at].
  change (is_e "e") with true. cbv iota. cbn [fst snd].
  rewrite !str_app_nil_r, split_dot_mantissa by done.
  cbn [default id].
  by destruct (ip +:+ fp) as [|a s0] eqn:E.
Qed.

(** digits [e] exponent *)
Lemma Decimal_of_str_sci_int (ip es : string) :
  all_digits ip = true → ip ≠ "" →
  Decimal_of_str (ip +:+ "e" +:+ es) =
    (n ← int_digits ip 0;
     x ← parse_exponent es;
     Some {| d_int := n; d_exp := x |}).
Proof.
  intros Hip Hne. unfold Decimal_of_str.
  rewrite (split_at_digits is_e ip) by (done || apply is_digit_not_e).
  change ("e" +:+ es) with (String "e" es). cbn [split_at].
  change (is_e "e") with true. cbv iota. cbn [fst snd].
  rewrite str_app_nil_r.
  rewrite (split_at_digits_only is_dot ip) by (done || apply is_digit_not_dot).
  cbn [default]. rewrite str_app_nil_r.
  destruct ip as [|a s0] eqn:E; [done|].
  destruct (int_digits (String a s0) 0); simpl; [|done].
  destruct (parse_exponent es); simpl; [|done].
  do 2 f_equal. lia.
Qed.

(** The exponent field that [str(float)] writes. *)
Lemma parse_exponent_float (e : Z) :
  let es := str_N (Z.abs_N e) in
  parse_exponent
    ((if e <? 0 then "-" else "+")
     +:+ (if (String.length es <? 2)%nat then "0" +:+ es else es)) = Some e.
Proof.
  intros es.
  pose proof (int_digits_str_N (Z.abs_N e)) as Hes. fold es in Hes.
  pose proof (ndigits_pos (Z.abs_N e)) as Hlen. unfold ndigits in Hlen.
  fold es in Hlen.
  assert (int_digits (if (String.length es <? 2)%nat then "0" +:+ es else es) 0
          = Some (Z.abs_N e)) as Hpad.
  { destruct (String.length es <? 2)%nat; [|done].
    change ("0" +:+ es) with (String "0" es). simpl. exact Hes. }
  assert ((if (String.length es <? 2)%nat then "0" +:+ es else es) ≠ "") as Hne.
  { destruct (String.length es <? 2)%nat; [done|].
    destruct es; [simpl in Hlen; lia | done]. }
  destruct (Z.ltb_spec e 0).
  - change ("-" +:+ ?s) with (String "-" s). cbn [parse_exponent].
    change (bool_decide ("-"%char = "-"%char)) with true. cbv iota.
    destruct (if (String.length es <? 2)%nat then _ else _) eqn:E; [done|].
    rewrite Hpad. simpl. f_equal. lia.
  - change ("+" +:+ ?s) with (String "+" s). cbn [parse_exponent].
    change (bool_decide ("+"%char = "-"%char)) with false.
    change (bool_decide ("+"%char = "+"%char)) with true. cbv iota.
    destruct (if (String.length es <? 2)%nat then _ else _) eqn:E; [done|].
    rewrite Hpad. simpl. f_equal. lia.
Qed.

(** [Decimal(str(x))] is defined for every finite float that is not
    negative, and is the decimal number that [str(x)] shows. *)
Lemma Decimal_of_finite_str (fd : N) (fe : Z) :
  ∃ d, Decimal_of_str (finite_str false fd fe) = Some d ∧
       d_exp d ≤ fe ∧
       d_int d = (fd * 10 ^ Z.to_N (fe - d_exp d))%N.
Proof.
  unfold finite_str. rewrite str_app_nil_l.
  pose proof (int_digits_str_N fd) as Hint.
  pose proof (all_digits_str_N fd) as Hdig.
  pose proof (ndigits_pos fd) as Hpos. unfold ndigits in Hpos.
  set (ds := str_N fd) in *.
  set (len := Z.of_nat (String.length ds)).
  set (decpt := len + fe).
  assert (1 ≤ len) as Hlen by (unfold len; lia).
  assert (ds ≠ "") as Hne by (intros E; rewrite E in Hpos; simpl in Hpos; lia).
  destruct ((decpt <=? -4) || (16 <? decpt)) eqn:Hsci.
  - (* scientific notation *)
    destruct (Z.ltb_spec 1 len) as [Hlong|Hone]; cbv iota.
    + rewrite (str_app_assoc "." (str_drop 1 ds)).
      rewrite Decimal_of_str_sci_frac;
        [|by apply all_digits_take|by apply all_digits_drop
         |by rewrite str_take_drop].
      rewrite str_take_drop, Hint. cbn [mbind option_bind].
      rewrite (parse_exponent_float (decpt - 1)). cbn [mbind option_bind].
      eexists. split; [done|]. cbn [d_exp d_int]. rewrite str_drop_length.
      unfold decpt, len in *.
      split; [lia|].
      replace (Z.to_N _) with 0%N by lia. rewrite N.pow_0_r. lia.
    + rewrite str_app_nil_l, str_take_all by lia.
      rewrite Decimal_of_str_sci_int by done.
      rewrite Hint. cbn [mbind option_bind].
      rewrite (parse_exponent_float (decpt - 1)). cbn [mbind option_bind].
      eexists. split; [done|]. cbn [d_exp d_int].
      unfold decpt, len in *.
      split; [lia|].
      replace (Z.to_N _) with 0%N by lia. rewrite N.pow_0_r. lia.
  - destruct (Z.leb_spec decpt 0) as [Hsmall|Hbig]; cbv iota.
    + (* 0.000ddd *)
      change ("0." +:+ ?r) with ("0" +:+ "." +:+ r).
      rewrite Decimal_of_str_fixed;
        [|done|by rewrite all_digits_app, all_digits_zeros|done].
      change ("0" +:+ ?r) with (zeros 1 +:+ r).
      rewrite !int_digits_leading_zeros, Hint. cbn [mbind option_bind].
      eexists. split; [done|]. cbn [d_exp d_int].
      rewrite str_length_app, zeros_length.
      unfold decpt, len in *.
      split; [lia|].
      replace (Z.to_N _) with 0%N by lia. rewrite N.pow_0_r. lia.
    + destruct (Z.leb_spec len decpt) as [Hint'|Hfrac]; cbv iota.
      * (* ddd000.0 *)
        rewrite <- str_app_assoc.
        change ".0" with ("." +:+ "0").
        rewrite Decimal_of_str_fixed;
          [|by rewrite all_digits_app, Hdig, all_digits_zeros|done
           |by destruct ds].
        rewrite !int_digits_app, Hint. cbn [mbind option_bind].
        rewrite int_digits_zeros. cbn [mbind option_bind].
        change (int_digits "0" ?v) with (Some (10 * v + 0)%N).
        cbn [mbind option_bind].
        eexists. split; [done|]. cbn [d_exp d_int String.length].
        unfold decpt, len in *.
        split; [lia|].
        replace (Z.to_N (fe - - Z.of_nat 1))
          with (N.succ (N.of_nat (Z.to_nat
                  (Z.of_nat (String.length ds) + fe
                   - Z.of_nat (String.length ds))))) by lia.
        rewrite N.pow_succ_r'. lia.
      * (* dd.ddd *)
        rewrite Decimal_of_str_fixed;
          [|by apply all_digits_take|by apply all_digits_drop
           |by rewrite str_take_drop].
        rewrite str_take_drop, Hint. cbn [mbind option_bind].
        eexists. split; [done|]. cbn [d_exp d_int]. rewrite str_drop_length.
        unfold decpt, len in *.
        split; [lia|].
        replace (Z.to_N _) with 0%N by lia. rewrite N.pow_0_r. lia.
Qed.

Lemma Decimal_of_float_str (x : PyFloat) :
  is_finite x = true → f_neg x = false →
  ∃ d, Decimal_of_str (float_str x) = Some d ∧
       d_exp d ≤ f_exp x ∧
       d_int d = (f_digits x * 10 ^ Z.to_N (f_exp x - d_exp d))%N.
Proof.
  destruct x as [neg fd fe| |]; [|done..]. intros _ Hneg. simpl in Hneg.
  subst neg. apply Decimal_of_finite_str.
Qed.

(** The text of a finite float is not the text of a special value. *)
Lemma Decimal_of_repr_finite (x : PyFloat) (d : Decimal) :
  Decimal_of_str (float_str x) = Some d →
  Decimal_of_repr (float_str x) = Some (DNum d).
Proof.
  unfold Decimal_of_repr. intros Hd.
  destruct (bool_decide_reflect (float_str x = "inf")) as [E|_];
    [by rewrite E in Hd|].
  destruct (bool_decide_reflect (float_str x = "nan")) as [E|_];
    [by rewrite E in Hd|].
  by rewrite Hd.
Qed.

Lemma float_le0_false (x : PyFloat) : float_le0 x = false → f_neg x = false.
Proof. destruct x as [neg fd fe|neg|]; simpl; [|done..]. by intros [? _]%orb_false_iff. Qed.

(** ** The store *)

Lemma next_pk_above {A : Type} (t : gmap Z A) (k : Z) :
  is_Some (t !! k) → k < next_pk t.
Proof.
  unfold next_pk. revert k.
  apply (map_fold_weak_ind
           (λ r (m : gmap Z A), ∀ k, is_Some (m !! k) → k < 1 + r)).
  - intros k [x Hx]. by rewrite lookup_empty in Hx.
  - intros i x m r _ IH k. rewrite lookup_insert.
    case_decide as Hik; [lia|]. intros Hk. specialize (IH k Hk). lia.
Qed.

Lemma next_pk_fresh {A : Type} (t : gmap Z A) : t !! next_pk t = None.
Proof.
  destruct (t !! next_pk t) eqn:Hk; [|done].
  assert (next_pk t < next_pk t) by (apply next_pk_above; eauto). lia.
Qed.

Lemma email_exists_spec (email : string) (t : gmap Z CustomerRow) :
  existsb (λ kr : Z * CustomerRow, bool_decide (c_email kr.2 = email))
    (map_to_list t) = true ↔
  ∃ k row, t !! k = Some row ∧ c_email row = email.
Proof.
  rewrite existsb_exists. split.
  - intros ([k row] & Hin & Heq). exists k, row.
    apply list_elem_of_In, elem_of_map_to_list in Hin.
    by apply bool_decide_eq_true in Heq.
  - intros (k & row & Hk & Heq). exists (k, row).
    split; [by apply list_elem_of_In, elem_of_map_to_list|].
    by apply bool_decide_eq_true.
Qed.

Section fetch.
Context {A : Type}.
Implicit Types (t : gmap Z A) (ks : list Z).

Lemma elem_of_fetch t ks k row :
  (k, row) ∈ fetch t ks ↔ t !! k = Some row ∧ k ∈ ks.
Proof.
  unfold fetch. rewrite list_elem_of_filter, elem_of_map_to_list. simpl.
  tauto.
Qed.

Lemma NoDup_fetch_keys t ks : NoDup (fetch t ks).*1.
Proof.
  eapply sublist_NoDup; [apply (NoDup_fst_map_to_list t)|].
  apply fmap_sublist, sublist_filter.
Qed.

Lemma fetch_keys_incl t ks : (fetch t ks).*1 ⊆ ks.
Proof.
  intros k ([k' row] & -> & Hin)%list_elem_of_fmap.
  by apply elem_of_fetch in Hin as [_ ?].
Qed.

Lemma fetch_length_le t ks : (List.length (fetch t ks) ≤ List.length ks)%nat.
Proof.
  rewrite <- (length_fmap fst).
  apply submseteq_length, NoDup_submseteq;
    [apply NoDup_fetch_keys | apply fetch_keys_incl].
Qed.

(** As many rows as keys: the keys are distinct and each one has its row. *)
Lemma fetch_all t ks :
  List.length (fetch t ks) = List.length ks →
  NoDup ks ∧ ∀ k, k ∈ ks → is_Some (t !! k).
Proof.
  intros Hlen.
  assert ((fetch t ks).*1 ≡ₚ ks) as Hperm.
  { apply submseteq_length_Permutation.
    - apply NoDup_submseteq; [apply NoDup_fetch_keys | apply fetch_keys_incl].
    - rewrite length_fmap. lia. }
  split.
  - rewrite <- Hperm. apply NoDup_fetch_keys.
  - intros k Hk. rewrite <- Hperm in Hk.
    apply list_elem_of_fmap in Hk as ([k' row] & -> & Hin).
    apply elem_of_fetch in Hin as [Hrow _]. eauto.
Qed.

End fetch.

Lemma singleton_list {A : Type} (l : list A) (a : A) :
  NoDup l → (∀ x, x ∈ l ↔ x = a) → l = [a].
Proof.
  intros Hnd Hl. destruct l as [|x [|y l]].
  - exfalso. eapply elem_of_nil, Hl. done.
  - f_equal. apply Hl. by left.
  - assert (x = a) as -> by (apply Hl; by left).
    assert (y = a) as -> by (apply Hl; right; by left).
    apply NoDup_cons in Hnd as [Hnotin _]. exfalso. apply Hnotin. by left.
Qed.

(** Only one of the two requested products is in the table. *)
Lemma fetch_one_of_two (t : gmap Z ProductRow) (ks : list Z) (ka kb : Z)
    (row : ProductRow) :
  t !! ka = Some row → t !! kb = None →
  (∀ k, k ∈ ks ↔ k = ka ∨ k = kb) →
  fetch t ks = [(ka, row)].
Proof.
  intros Ha Hb Hks. apply singleton_list.
  - eapply NoDup_fmap_1, NoDup_fetch_keys.
  - intros [k r]. rewrite elem_of_fetch, Hks. split.
    + intros [Hk [-> | ->]]; congruence.
    + intros [= -> ->]. auto.
Qed.

(** ** Statements, faults and atomic blocks *)

Lemma quiet_S (n : nat) (fs : list (option string)) :
  quiet (S n) fs = true →
  fs = [] ∨ ∃ fs', fs = None :: fs' ∧ quiet n fs' = true.
Proof.
  destruct fs as [|[d|] fs]; [by left | done |].
  intros H. right. by exists fs.
Qed.

Lemma quiet_nil (n : nat) : quiet n [] = true.
Proof. by destruct n. Qed.


Lemma quiet_tail (n : nat) (fs : list (option string)) :
  quiet (S n) fs = true → quiet 1 fs = true ∧ quiet n (tail fs) = true.
Proof.
  intros [-> | (fs' & -> & Hq)]%quiet_S; simpl.
  - split; [done | apply quiet_nil].
  - done.
Qed.

(** A statement that executes. *)
Lemma execute_quiet {A : Type} (f : Store → outcome A * Store) (c : Conn) :
  needs_rollback c = false → quiet 1 (faults c) = true →
  execute f c =
    ((f (db c)).1, with_db c (f (db c)).2 (tail (faults c))).
Proof.
  intros Hnr Hq. unfold execute. rewrite Hnr.
  destruct (faults c) as [|[d|] fs]; [|done|]; by destruct (f (db c)).
Qed.

(** A statement that the backend refuses. *)
Lemma execute_fault {A : Type} (f : Store → outcome A * Store) (c : Conn)
    (d : string) (fs : list (option string)) :
  needs_rollback c = false → faults c = Some d :: fs →
  execute f c =
    (Raise (DatabaseError d),
     {| db := db c; faults := fs; in_atomic := in_atomic c;
        needs_rollback := in_atomic c |}).
Proof. intros Hnr Hf. unfold execute. by rewrite Hnr, Hf. Qed.

(** Whatever happens, a failed statement leaves the store as it was. *)
Lemma execute_raise_db {A : Type} (f : Store → outcome A * Store) (c c' : Conn)
    (e : pyexc) :
  (∀ s e' s', f s = (Raise e', s') → s' = s) →
  execute f c = (Raise e, c') → db c' = db c.
Proof.
  intros Hf. unfold execute. destruct (needs_rollback c); [by intros [= _ <-]|].
  destruct (faults c) as [|[d|] fs]; [|by intros [= _ <-]|];
    destruct (f (db c)) as [[a|e'] s'] eqn:Hfs; intros [= _ <-]; simpl;
    eauto.
Qed.

Lemma execute_read_db {A : Type} (g : Store → outcome A) (c c' : Conn)
    (r : outcome A) :
  execute (λ s, (g s, s)) c = (r, c') → db c' = db c.
Proof.
  unfold execute. destruct (needs_rollback c); [by intros [= _ <-]|].
  destruct (faults c) as [|[d|] fs]; by intros [= _ <-].
Qed.

Lemma execute_return_inv {A : Type} (f : Store → outcome A * Store)
    (c c' : Conn) (a : A) :
  execute f c = (Return a, c') →
  needs_rollback c = false ∧
  ∃ s1, f (db c) = (Return a, s1) ∧ c' = with_db c s1 (tail (faults c)).
Proof.
  unfold execute. destruct (needs_rollback c); [done|].
  destruct (faults c) as [|[d|] fs]; [|done|];
    destruct (f (db c)) as [r s1]; intros [= -> <-]; eauto.
Qed.


Lemma atomic_raise_db {A : Type} (body : M A) (c c' : Conn) (e : pyexc) :
  atomic body c = (Raise e, c') → db c' = db c.
Proof.
  unfold atomic.
  destruct (body _) as [[a|e'] c1]; [done|]. by intros [= _ <-].
Qed.

Lemma atomic_return_inv {A : Type} (body : M A) (c c' : Conn) (a : A) :
  atomic body c = (Return a, c') →
  ∃ c1, body {| db := db c; faults := faults c; in_atomic := true;
                needs_rollback := false |} = (Return a, c1)
        ∧ db c' = (if needs_rollback c1 then db c else db c1).
Proof.
  unfold atomic.
  destruct (body _) as [[a'|e'] c1]; [|done]. intros [= -> <-]. eauto.
Qed.

Lemma run_raise_db {A : Type} (m : M A) :
  (∀ c c' e, m c = (Raise e, c') → db c' = db c) →
  ∀ s fs e s', run m s fs = (Raise e, s') → s' = s.
Proof.
  intros Hm s fs e s'. unfold run.
  destruct (m _) as [r c'] eqn:Hrun. intros [= -> <-].
  by apply Hm in Hrun.
Qed.

(** Unfolding the plumbing of the handlers. *)
Ltac unfold_run :=
  unfold run, try_except, mbind, M_bind, bind, mret, M_ret, ret, raise.

(** ** [CreateCustomer] *)



Lemma createCustomer_raises_validation (input : CustomerInput) (c c' : Conn)
    (e : pyexc) :
  CreateCustomer.mutate input c = (Raise e, c') → is_ValidationError e = true.
Proof.
  unfold CreateCustomer.mutate.
  destruct (negb _); [by intros [= <- _]|].
  unfold_run.
  destruct (Customer_email_exists _ c) as [[[]|e1] c1].
  - by intros [= <- _].
  - destruct (Customer_create _ c1) as [[cust|e2] c2]; [done|].
    destruct (is_ValidationError e2); by intros [= <- _].
  - destruct (is_ValidationError e1); by intros [= <- _].
Qed.

Lemma createCustomer_wraps_store_error (input : CustomerInput) (s : Store)
    (d : string) (fs : list (option string)) :
  CreateCustomer.validate_phone (ci_phone input) = true →
  run (CreateCustomer.mutate input) s (Some d :: fs) =
    (Raise (ValidationError
              (Concat (Text "Error creating customer: ")
                      (StrOf (DatabaseError d)))), s).
Proof. intros Hv. unfold CreateCustomer.mutate. by rewrite Hv. Qed.

(** ** [BulkCreateCustomers] *)

Lemma loop_cons (r : CustomerInput) (rest : list (option CustomerInput))
    (cs : list Customer) (es : list pystr) :
  BulkCreateCustomers.loop (Some r :: rest) cs es =
    (acc ← try_except
       (if negb (CreateCustomer.validate_phone (ci_phone r)) then
          ret (cs, es ++ [BulkCreateCustomers.invalid_phone_error r])
        else
          customer ← Customer_create (customer_row r);
          ret (cs ++ [customer], es))
       (λ e, ret (cs, es ++ [BulkCreateCustomers.creation_error r e]));
     BulkCreateCustomers.loop rest acc.1 acc.2).
Proof. reflexivity. Qed.

(** The three ways one turn of the loop can go for a record. *)
Lemma loop_invalid (r : CustomerInput) (rest : list (option CustomerInput))
    (cs : list Customer) (es : list pystr) (c : Conn) :
  CreateCustomer.validate_phone (ci_phone r) = false →
  BulkCreateCustomers.loop (Some r :: rest) cs es c =
  BulkCreateCustomers.loop rest cs
    (es ++ [BulkCreateCustomers.invalid_phone_error r]) c.
Proof. intros Hr. rewrite loop_cons, Hr. reflexivity. Qed.

Lemma loop_created (r : CustomerInput) (rest : list (option CustomerInput))
    (cs : list Customer) (es : list pystr) (c c' : Conn) (cust : Customer) :
  CreateCustomer.validate_phone (ci_phone r) = true →
  Customer_create (customer_row r) c = (Return cust, c') →
  BulkCreateCustomers.loop (Some r :: rest) cs es c =
  BulkCreateCustomers.loop rest (cs ++ [cust]) es c'.
Proof. intros Hr Hc. rewrite loop_cons, Hr. unfold_run. cbn [negb]. by rewrite Hc. Qed.

Lemma loop_raised (r : CustomerInput) (rest : list (option CustomerInput))
    (cs : list Customer) (es : list pystr) (c c' : Conn) (e : pyexc) :
  CreateCustomer.validate_phone (ci_phone r) = true →
  Customer_create (customer_row r) c = (Raise e, c') →
  BulkCreateCustomers.loop (Some r :: rest) cs es c =
  BulkCreateCustomers.loop rest cs
    (es ++ [BulkCreateCustomers.creation_error r e]) c'.
Proof. intros Hr Hc. rewrite loop_cons, Hr. unfold_run. cbn [negb]. by rewrite Hc. Qed.

(** A null element ends the loop: the handler raises. *)
Lemma loop_null (rest : list (option CustomerInput))
    (cs : list Customer) (es : list pystr) (c : Conn) :
  BulkCreateCustomers.loop (None :: rest) cs es c =
    (Raise (AttributeError "name"), c).
Proof. reflexivity. Qed.














(** ** [CreateProduct] *)





(** [CreateProduct] has no handler for exceptions other than
    [ValidationError]: a store error leaves the handler as it is. *)
Lemma createProduct_propagates_store_error (input : ProductInput) (s : Store)
    (d : string) (fs : list (option string)) (stock : Z) :
  is_finite (pi_price input) = true →
  float_le0 (pi_price input) = false →
  pi_stock input = Some stock → 0 ≤ stock →
  run (CreateProduct.mutate input) s (Some d :: fs) =
    (Raise (DatabaseError d), s).
Proof.
  intros Hfin Hprice Hs Hstock.
  destruct (Decimal_of_float_str (pi_price input))
    as (dec & Hd & _); [done|by apply float_le0_false|].
  unfold CreateProduct.mutate.
  apply Z.ltb_ge in Hstock.
  by rewrite Hprice, Hs, Hstock, (Decimal_of_repr_finite _ _ Hd).
Qed.

(** C8: the store refuses the insert of a valid product; the
    [DatabaseError] leaves [CreateProduct.mutate] as it is, where
    [CreateCustomer.mutate] and [CreateOrder.mutate] turn it into a
    [ValidationError] (the two [wraps_store_error] lemmas). *)
Lemma createProduct_store_error_escapes :
  run (CreateProduct.mutate widget) shop [Some "connection lost"] =
    (Raise (DatabaseError "connection lost"), shop).
Proof. vm_compute. reflexivity. Qed.

(** ** [CreateOrder] *)

(** *** Converted keys *)

Section keys.
Variable to_python : string → option Z.

Lemma prepare_keys_length (ids : list (option string)) (ks : list Z) :
  prepare_keys to_python ids = inr ks →
  (List.length ks ≤ List.length ids)%nat.
Proof.
  revert ks. induction ids as [|[id|] ids IH]; intros ks; simpl.
  - by intros [= <-].
  - destruct (to_python id) as [k|]; [|done].
    destruct (prepare_keys to_python ids) as [bad|ks']; [done|].
    intros [= <-]. specialize (IH _ eq_refl). simpl. lia.
  - intros Hks%IH. lia.
Qed.

(** As many keys as ids: no id is null and each one has its key. *)
Lemma prepare_keys_spec (ids : list (option string)) (ks : list Z) :
  prepare_keys to_python ids = inr ks →
  (List.length ids ≤ List.length ks)%nat →
  Forall2 (λ id k, id ≫= to_python = Some k) ids ks.
Proof.
  revert ks. induction ids as [|[id|] ids IH]; intros ks; simpl.
  - intros [= <-]. constructor.
  - destruct (to_python id) as [k|] eqn:Hk; [|done].
    destruct (prepare_keys to_python ids) as [bad|ks']; [done|].
    intros [= <-] Hlen. simpl in Hlen.
    constructor; [done | apply IH; [done | lia]].
  - intros Hks%prepare_keys_length. lia.
Qed.

Lemma prepare_keys_ok (ids : list (option string)) (ks : list Z) :
  Forall2 (λ id k, id ≫= to_python = Some k) ids ks →
  prepare_keys to_python ids = inr ks.
Proof.
  induction 1 as [|[id|] k ids ks Hk _ IH]; simpl; [done| |done].
  simpl in Hk. by rewrite Hk, IH.
Qed.

Lemma prepare_keys_elem (ids : list (option string)) (ks : list Z) (k : Z) :
  prepare_keys to_python ids = inr ks →
  k ∈ ks ↔ Exists (λ id, id ≫= to_python = Some k) ids.
Proof.
  revert ks. induction ids as [|[id|] ids IH]; intros ks; simpl.
  - intros [= <-]. rewrite Exists_nil. split; [by intros ?%elem_of_nil | done].
  - destruct (to_python id) as [k'|] eqn:Hk; [|done].
    destruct (prepare_keys to_python ids) as [bad|ks']; [done|].
    intros [= <-]. rewrite elem_of_cons, Exists_cons, (IH ks' eq_refl).
    simpl. rewrite Hk. split.
    + intros [-> | ?]; auto.
    + intros [[= ->] | ?]; auto.
  - intros Hks. rewrite Exists_cons, (IH _ Hks). simpl. split; [auto|].
    by intros [? | ?].
Qed.

(** A null id has no key: fewer keys than ids. *)
Lemma prepare_keys_null (ids : list (option string)) (ks : list Z) :
  prepare_keys to_python ids = inr ks → None ∈ ids →
  (List.length ks < List.length ids)%nat.
Proof.
  revert ks. induction ids as [|[id|] ids IH]; intros ks; simpl.
  - by intros _ ?%elem_of_nil.
  - destruct (to_python id) as [k|]; [|done].
    destruct (prepare_keys to_python ids) as [bad|ks'] eqn:Hks; [done|].
    intros [= <-] [?|Hin]%elem_of_cons; [done|].
    specialize (IH _ eq_refl Hin). simpl. lia.
  - intros Hks%prepare_keys_length _. lia.
Qed.

End keys.

Lemma fetch_nil {A : Type} (t : gmap Z A) : fetch t [] = [].
Proof.
  destruct (fetch t []) as [|[k row] l] eqn:E; [done|].
  assert ((k, row) ∈ fetch t []) as Hin by (rewrite E; by left).
  apply elem_of_fetch in Hin as [_ Hin]. by apply elem_of_nil in Hin.
Qed.

(** *** A failed call *)

Lemma Customer_get_db (to_python : string → option Z) (id : string)
    (c c' : Conn) (r : outcome Customer) :
  Customer_get to_python id c = (r, c') → db c' = db c.
Proof.
  unfold Customer_get. destruct (to_python id) as [k|].
  - apply (execute_read_db
             (λ s, match customers s !! k with
                   | Some row => Return (k, row)
                   | None => Raise DoesNotExist
                   end)).
  - by intros [= _ <-].
Qed.

Lemma Product_filter_in_db (to_python : string → option Z)
    (ids : list (option string)) (c c' : Conn) (r : outcome (list Product)) :
  Product_filter_in to_python ids c = (r, c') → db c' = db c.
Proof.
  unfold Product_filter_in.
  destruct (prepare_keys to_python ids) as [bad|[|k ks]].
  - by intros [= _ <-].
  - by intros [= _ <-].
  - apply (execute_read_db
             (λ s, Return (fetch (products s) (k :: ks)))).
Qed.

Section failure.
Variable to_python : string → option Z.

(** The handler up to the point where an outcome is known, as a case
    analysis on its steps. *)
Lemma createOrder_raise_db (input : OrderInput) (c c' : Conn) (e : pyexc) :
  CreateOrder.mutate to_python input c = (Raise e, c') → db c' = db c.
Proof.
  unfold CreateOrder.mutate. unfold_run.
  destruct (Customer_get to_python (oi_customer_id input) c)
    as [[cust|e1] c1] eqn:Hget.
  2:{ apply Customer_get_db in Hget.
      destruct e1; simpl; intros [= _ <-]; done. }
  apply Customer_get_db in Hget.
  destruct (oi_product_ids input) as [|id ids] eqn:Hids.
  { simpl. by intros [= _ <-]. }
  destruct (Product_filter_in to_python (id :: ids) c1)
    as [[ps|e2] c2] eqn:Hfilter.
  2:{ apply Product_filter_in_db in Hfilter.
      destruct e2; simpl; intros [= _ <-]; congruence. }
  apply Product_filter_in_db in Hfilter.
  destruct (negb _).
  { unfold CreateOrder.join_set. case_bool_decide; simpl;
      intros [= _ <-]; congruence. }
  match goal with
  | |- context [atomic ?b c2] =>
      destruct (atomic b c2) as [[o|e3] c3] eqn:Hat
  end.
  - simpl. done.
  - apply atomic_raise_db in Hat.
    destruct e3; simpl; intros [= _ <-]; congruence.
Qed.

Lemma createOrder_empty_raises (input : OrderInput) (c : Conn) :
  oi_product_ids input = [] →
  ∃ e c', CreateOrder.mutate to_python input c = (Raise e, c').
Proof.
  intros Hids. unfold CreateOrder.mutate. unfold_run. rewrite Hids.
  destruct (Customer_get to_python (oi_customer_id input) c)
    as [[cust|e1] c1]; [simpl; eauto|].
  destruct e1; simpl; eauto.
Qed.

(** C7: a [createOrder] call that fails leaves the store as it was; a call
    with no product id always fails; and after a failed call the number of
    orders is unchanged and the same call behaves as it would have on the
    store before. *)
Theorem createOrder_failure_keeps_store (input : OrderInput) (s : Store)
    (fs : list (option string)) :
  (∀ e s',
     run (CreateOrder.mutate to_python input) s fs = (Raise e, s') → s' = s)
  ∧ (oi_product_ids input = [] →
     ∃ e, run (CreateOrder.mutate to_python input) s fs = (Raise e, s))
  ∧ (∀ e s' fs2,
     run (CreateOrder.mutate to_python input) s fs = (Raise e, s') →
     size (orders s') = size (orders s) ∧
     run (CreateOrder.mutate to_python input) s' fs2 =
     run (CreateOrder.mutate to_python input) s fs2).
Proof.
  assert (∀ e s',
     run (CreateOrder.mutate to_python input) s fs = (Raise e, s') → s' = s)
    as Hkeep.
  { apply run_raise_db. apply createOrder_raise_db. }
  split; [done|]. split.
  - intros Hids. unfold run.
    destruct (createOrder_empty_raises input
                {| db := s; faults := fs; in_atomic := false;
                   needs_rollback := false |} Hids) as (e & c' & Hrun).
    exists e. pose proof (createOrder_raise_db _ _ _ _ Hrun) as Hdb.
    rewrite Hrun. by rewrite Hdb.
  - intros e s' fs2 Hrun. by rewrite (Hkeep _ _ Hrun).
Qed.

End failure.

(** An order for no product. *)
Lemma createOrder_failure_keeps_store_witness :
  run (CreateOrder.mutate int_of_numeral order_nothing) shop [] =
    (Raise (ValidationError (StrOf (ValidationError
       (Text "At least one product is required")))),
     (run (CreateOrder.mutate int_of_numeral order_nothing) shop []).2)
  ∧ (run (CreateOrder.mutate int_of_numeral order_nothing) shop []).2 = shop.
Proof.
  assert (run (CreateOrder.mutate int_of_numeral order_nothing) shop [] =
    (Raise (ValidationError (StrOf (ValidationError
       (Text "At least one product is required")))),
     (run (CreateOrder.mutate int_of_numeral order_nothing) shop []).2)) as Hrun
    by (vm_compute; reflexivity).
  split; [exact Hrun|].
  exact (proj1 (createOrder_failure_keeps_store int_of_numeral order_nothing
                  shop []) _ _ Hrun).
Defined.

(** *** The steps of a call *)

Section steps.
Variable to_python : string → option Z.

(** The customer is found and the products are fetched: what the two
    lookups return when their statements execute. *)
Lemma Customer_get_found (id : string) (k : Z) (row : CustomerRow) (c : Conn) :
  needs_rollback c = false → quiet 1 (faults c) = true →
  to_python id = Some k → customers (db c) !! k = Some row →
  Customer_get to_python id c =
    (Return (k, row), with_db c (db c) (tail (faults c))).
Proof.
  intros Hnr Hq Hk Hrow. unfold Customer_get. rewrite Hk.
  rewrite execute_quiet by done. simpl. by rewrite Hrow.
Qed.

Lemma Product_filter_in_fetched (ids : list (option string)) (ks : list Z)
    (c : Conn) :
  needs_rollback c = false → quiet 1 (faults c) = true →
  prepare_keys to_python ids = inr ks → ks ≠ [] →
  Product_filter_in to_python ids c =
    (Return (fetch (products (db c)) ks), with_db c (db c) (tail (faults c))).
Proof.
  intros Hnr Hq Hks Hne. unfold Product_filter_in. rewrite Hks.
  destruct ks as [|k ks]; [done|]. by rewrite execute_quiet.
Qed.

(** No key is left: nothing is fetched and no statement is sent. *)
Lemma Product_filter_in_no_key (ids : list (option string)) (c : Conn) :
  prepare_keys to_python ids = inr [] →
  Product_filter_in to_python ids c = (Return (fetch (products (db c)) []), c).
Proof.
  intros Hks. unfold Product_filter_in. by rewrite Hks, fetch_nil.
Qed.

(** The call that finds its customer and fetches another number of
    products than it has ids. *)
Lemma createOrder_count_differs (input : OrderInput) (s : Store)
    (fs : list (option string)) (k : Z) (crow : CustomerRow) (ks : list Z) :
  to_python (oi_customer_id input) = Some k →
  customers s !! k = Some crow →
  prepare_keys to_python (oi_product_ids input) = inr ks →
  quiet 2 fs = true →
  List.length (fetch (products s) ks) ≠ List.length (oi_product_ids input) →
  run (CreateOrder.mutate to_python input) s fs =
    (match CreateOrder.join_set ", "
             (CreateOrder.missing_products (oi_product_ids input)
                (fetch (products s) ks)) with
     | Return names =>
         Raise (ValidationError (StrOf (ValidationError
                  (Concat (Text "Products not found: ") names))))
     | Raise e =>
         Raise (ValidationError
                  (Concat (Text "Error creating order: ") (StrOf e)))
     end, s).
Proof.
  intros Hk Hrow Hks Hq Hlen.
  apply quiet_tail in Hq as [Hq1 Hq2].
  unfold run, CreateOrder.mutate. unfold_run.
  rewrite (Customer_get_found _ k crow) by done.
  destruct (oi_product_ids input) as [|id ids] eqn:Hids.
  { simpl in Hks. injection Hks as <-. by rewrite fetch_nil in Hlen. }
  destruct (decide (ks = [])) as [->|Hne].
  - rewrite Product_filter_in_no_key by done.
    unfold with_db. cbn [db faults].
    match goal with
    | |- context [negb (?a =? ?b)%nat] => destruct (Nat.eqb_spec a b)
    end; [done|]. cbn [negb].
    unfold CreateOrder.join_set. by case_bool_decide.
  - rewrite (Product_filter_in_fetched _ ks) by done.
    unfold with_db. cbn [db faults].
    match goal with
    | |- context [negb (?a =? ?b)%nat] => destruct (Nat.eqb_spec a b)
    end; [done|]. cbn [negb].
    unfold CreateOrder.join_set. by case_bool_decide.
Qed.

(** What a successful call has done. *)
Lemma createOrder_return_inv (input : OrderInput) (s s' : Store)
    (fs : list (option string)) (res : CreateOrder.t) :
  run (CreateOrder.mutate to_python input) s fs = (Return res, s') →
  ∃ (k : Z) (crow : CustomerRow) (ks : list Z),
    to_python (oi_customer_id input) = Some k ∧
    customers s !! k = Some crow ∧
    prepare_keys to_python (oi_product_ids input) = inr ks ∧
    Forall2 (λ id k, id ≫= to_python = Some k) (oi_product_ids input) ks ∧
    oi_product_ids input ≠ [] ∧
    List.length (fetch (products s) ks) = List.length (oi_product_ids input) ∧
    let ps := fetch (products s) ks in
    let ko := next_pk (orders s) in
    let row :=
      {| o_customer := k;
         o_total_amount := dec_sum ((λ p : Product, p_price p.2) <$> ps);
         o_order_date := default (clock s) (oi_order_date input) |} in
    res = {| CreateOrder.order := (ko, row);
             CreateOrder.message := "Order created successfully" |} ∧
    s' = {| customers := customers s;
            products := products s;
            orders := <[ko := row]> (orders s);
            order_products :=
              <[ko := list_to_set ps.*1]> (order_products s);
            clock := clock s |}.
Proof.
  unfold run.
  destruct (CreateOrder.mutate _ _ _) as [r c'] eqn:Hm.
  intros [= -> <-]. revert Hm.
  unfold CreateOrder.mutate. unfold_run.
  destruct (Customer_get to_python (oi_customer_id input) _)
    as [[cust|e1] c1] eqn:Hget; [|by destruct e1].
  unfold Customer_get in Hget.
  destruct (to_python (oi_customer_id input)) as [k|] eqn:Hk; [|done].
  apply execute_return_inv in Hget as (_ & s1 & Hf & ->).
  cbn [db faults] in Hf.
  destruct (customers s !! k) as [crow|] eqn:Hrow; [|done].
  injection Hf as <- <-.
  destruct (oi_product_ids input) as [|id ids] eqn:Hids; [done|].
  destruct (Product_filter_in to_python (id :: ids) _)
    as [[ps|e2] c2] eqn:Hfil; [|by destruct e2].
  unfold Product_filter_in in Hfil.
  destruct (prepare_keys to_python (id :: ids)) as [bad|ks] eqn:Hks; [done|].
  destruct ks as [|k0 ks0].
  { injection Hfil as <- <-. cbn [List.length Nat.eqb negb].
    unfold CreateOrder.join_set. by case_bool_decide. }
  set (ks := k0 :: ks0) in *.
  apply execute_return_inv in Hfil as (_ & s2 & Hf & ->).
  unfold with_db in Hf. cbn [db faults] in Hf. injection Hf as <- <-.
  match goal with
  | |- context [negb (?a =? ?b)%nat] => destruct (Nat.eqb_spec a b) as [Hlen|]
  end.
  2:{ cbn [negb]. unfold CreateOrder.join_set. by case_bool_decide. }
  cbn [negb].
  match goal with
  | |- context [atomic ?b ?c] =>
      destruct (atomic b c) as [[o|e3] c3] eqn:Hat
  end; [|by destruct e3].
  intros [= <- <-].
  apply atomic_return_inv in Hat as (c4 & Hbody & Hdb).
  revert Hbody.
  destruct (Order_create _ _ _ _) as [[o1|e4] c5] eqn:Hcreate; [|done].
  apply execute_return_inv in Hcreate as (_ & s3 & Hf & ->).
  unfold with_db in Hf. cbn [db faults] in Hf. injection Hf as <- <-.
  destruct (Order_products_set _ _ _) as [[[]|e5] c6] eqn:Hset; [|done].
  apply execute_return_inv in Hset as (_ & s4 & Hf & ->).
  unfold with_db in Hf. cbn [db faults] in Hf. injection Hf as <-.
  destruct (Order_save _ _) as [[[]|e6] c7] eqn:Hsave; [|done].
  apply execute_return_inv in Hsave as (_ & s5 & Hf & ->).
  unfold with_db in Hf. cbn [db faults] in Hf. injection Hf as <-.
  intros [= <- <-].
  exists k, crow, ks.
  split; [done|]. split; [done|]. split; [done|].
  split.
  { apply prepare_keys_spec; [done|]. rewrite <- Hlen.
    apply fetch_length_le. }
  split; [done|]. split; [done|].
  split; [done|].
  rewrite Hdb. unfold with_db, set_orders, set_order_products. simpl.
  by rewrite insert_insert_eq.
Qed.

End steps.

(** *** Totals, missing products and repeated ids *)

Section outcomes.
Variable to_python : string → option Z.

Lemma requested_products_fetch (ids : list (option string)) (ks : list Z)
    (s : Store) :
  prepare_keys to_python ids = inr ks →
  requested_products to_python ids s = fetch (products s) ks.
Proof.
  intros Hks. unfold requested_products, fetch.
  apply list_filter_iff. intros [k row]. simpl.
  by rewrite (prepare_keys_elem to_python ids ks).
Qed.


Lemma elem_of_missing_products (ids : list (option string))
    (ps : list Product) (id : option string) :
  id ∈ CreateOrder.missing_products ids ps ↔
  id ∈ ids ∧ ¬ ∃ p, p ∈ ps ∧ Some (str_Z p.1) = id.
Proof.
  unfold CreateOrder.missing_products.
  rewrite elem_of_difference, !elem_of_list_to_set, list_elem_of_fmap.
  split; intros [Hin Hno]; (split; [done|]); intros (p & H1 & H2);
    apply Hno; exists p; done.
Qed.

(** The texts that the message lists when no id is null. *)
Lemma join_set_missing (sep : string) (ids : list (option string))
    (ps : list Product) :
  None ∉ ids →
  ∃ missing : gset string,
    CreateOrder.join_set sep (CreateOrder.missing_products ids ps)
      = Return (Join sep missing)
    ∧ ∀ text, text ∈ missing ↔
              Some text ∈ ids ∧ ¬ ∃ p, p ∈ ps ∧ str_Z p.1 = text.
Proof.
  intros Hnone. unfold CreateOrder.join_set.
  case_bool_decide as Hin.
  { by apply elem_of_missing_products in Hin as [? _]. }
  eexists. split; [done|]. intros text.
  rewrite elem_of_set_omap. split.
  - intros (x & Hx & Heq). unfold id in Heq. subst x.
    apply elem_of_missing_products in Hx as [Hx Hno]. split; [done|].
    intros (p & Hp & <-). apply Hno. by exists p.
  - intros [Htext Hno]. exists (Some text). split; [|done].
    apply elem_of_missing_products. split; [done|].
    intros (p & Hp & [= Heq]). apply Hno. by exists p.
Qed.

(** With a null id among them the ids cannot be joined. *)
Lemma join_set_null (sep : string) (ids : list (option string))
    (ps : list Product) :
  None ∈ ids →
  CreateOrder.join_set sep (CreateOrder.missing_products ids ps)
    = Raise TypeError.
Proof.
  intros Hnone. unfold CreateOrder.join_set.
  case_bool_decide as Hin; [done|]. destruct Hin.
  apply elem_of_missing_products. split; [done|]. by intros (p & _ & ?).
Qed.

(** C2 (amended): when the customer is found, the two lookups execute and
    the number of fetched products differs from the number of requested
    ids, none of them null, the call fails with the message that lists the
    set difference: the requested id texts that are the [str] of no
    fetched key, each once, in no particular order.  A text that denotes a
    fetched product without being the [str] of its key is listed too.
    With one id that is the [str] of the key of an existing product and
    one id of no product, the message names exactly the latter.  With a
    null id among the requested ones the call fails with "Error creating
    order: " around a [TypeError], and names no id. *)
Theorem createOrder_names_missing (input : OrderInput) (s : Store)
    (fs : list (option string)) (k : Z) (crow : CustomerRow) (ks : list Z) :
  to_python (oi_customer_id input) = Some k →
  customers s !! k = Some crow →
  prepare_keys to_python (oi_product_ids input) = inr ks →
  quiet 2 fs = true →
  let ps := fetch (products s) ks in
  (List.length ps ≠ List.length (oi_product_ids input) →
   None ∉ oi_product_ids input →
   ∃ missing : gset string,
     run (CreateOrder.mutate to_python input) s fs =
       (Raise (ValidationError (StrOf (ValidationError
          (Concat (Text "Products not found: ") (Join ", " missing))))), s)
     ∧ ∀ text, text ∈ missing ↔
               Some text ∈ oi_product_ids input
               ∧ ¬ ∃ p, p ∈ ps ∧ str_Z p.1 = text)
  ∧ (∀ a b ka kb row,
     oi_product_ids input = [Some a; Some b]
     ∨ oi_product_ids input = [Some b; Some a] →
     to_python a = Some ka → products s !! ka = Some row → str_Z ka = a →
     to_python b = Some kb → products s !! kb = None →
     run (CreateOrder.mutate to_python input) s fs =
       (Raise (ValidationError (StrOf (ValidationError
          (Concat (Text "Products not found: ") (Join ", " {[ b ]}))))), s))
  ∧ (None ∈ oi_product_ids input →
     run (CreateOrder.mutate to_python input) s fs =
       (Raise (ValidationError
                 (Concat (Text "Error creating order: ") (StrOf TypeError))),
        s)).
Proof.
  intros Hk Hcrow Hks Hq ps. split; [|split].
  - intros Hlen Hnone.
    destruct (join_set_missing ", " (oi_product_ids input) ps Hnone)
      as (missing & Hjoin & Hmissing).
    exists missing. split; [|done].
    rewrite (createOrder_count_differs _ _ _ _ k crow ks) by done.
    fold ps. by rewrite Hjoin.
  - intros a b ka kb row Hids Ha Hrow Hstr Hb Hnone.
    assert (a ≠ b) as Hab by (intros ->; congruence).
    assert (ps = [(ka, row)]) as Hps.
    { apply (fetch_one_of_two _ _ ka kb); [done..|].
      intros k'. rewrite (prepare_keys_elem to_python _ _ _ Hks).
      destruct Hids as [-> | ->];
        rewrite !Exists_cons, Exists_nil; simpl; split.
      - intros [? | [? | []]]; [left | right]; congruence.
      - intros [-> | ->]; auto.
      - intros [? | [? | []]]; [right | left]; congruence.
      - intros [-> | ->]; auto. }
    destruct (join_set_missing ", " (oi_product_ids input) ps)
      as (missing & Hjoin & Hmissing).
    { destruct Hids as [-> | ->];
        rewrite !not_elem_of_cons; repeat split; try done;
        apply not_elem_of_nil. }
    assert (missing = {[ b ]}) as ->.
    { apply set_eq. intros x. rewrite Hmissing, Hps, elem_of_singleton.
      split.
      - intros [Hx Hno].
        assert (x = a ∨ x = b) as [-> | ->]; [|exfalso|done].
        { destruct Hids as [Hids | Hids]; rewrite Hids in Hx;
            rewrite !elem_of_cons, elem_of_nil in Hx;
            destruct Hx as [[= ->] | [[= ->] | []]]; auto. }
        apply Hno. exists (ka, row). split; [by left|done].
      - intros ->. split.
        + destruct Hids as [-> | ->]; rewrite !elem_of_cons; auto.
        + intros (p & ->%list_elem_of_singleton & Hp). simpl in Hp.
          congruence. }
    rewrite (createOrder_count_differs _ _ _ _ k crow ks); try done.
    + fold ps. by rewrite Hjoin.
    + fold ps. rewrite Hps. by destruct Hids as [-> | ->].
  - intros Hnone.
    rewrite (createOrder_count_differs _ _ _ _ k crow ks); try done.
    + by rewrite join_set_null.
    + pose proof (fetch_length_le (products s) ks) as Hle.
      pose proof (prepare_keys_null _ _ _ Hks Hnone) as Hlt.
      unfold Product in *. lia.
Qed.

(** Keys of which two are the same are not all distinct. *)
Lemma same_key_twice_dup (ids : list (option string)) (ks : list Z) :
  same_key_twice to_python ids →
  Forall2 (λ id k, id ≫= to_python = Some k) ids ks → ¬ NoDup ks.
Proof.
  intros (i & j & a & b & k & Hij & Hi & Hj & Ha & Hb) Hkeys Hnd.
  destruct (Forall2_lookup_l _ _ _ _ _ Hkeys Hi) as (ki & Hki & Hai).
  destruct (Forall2_lookup_l _ _ _ _ _ Hkeys Hj) as (kj & Hkj & Hbj).
  simpl in Hai, Hbj.
  assert (ki = k) as -> by congruence.
  assert (kj = k) as -> by congruence.
  apply Hij. by eapply NoDup_lookup.
Qed.

Lemma existing_keys (ids : list (option string)) (s : Store) :
  (∀ id, id ∈ ids →
     ∃ k, id ≫= to_python = Some k ∧ is_Some (products s !! k)) →
  ∃ ks, Forall2 (λ id k, id ≫= to_python = Some k) ids ks.
Proof.
  induction ids as [|id ids IH]; intros Hall; [by exists []|].
  destruct (Hall id) as (k & Hk & _); [by left|].
  destruct IH as [ks Hks]; [intros ??; apply Hall; by right|].
  exists (k :: ks). by constructor.
Qed.

(** C10 (amended): a [createOrder] call in whose list two ids denote the
    same key fails and leaves the store alone.  When the customer is
    found, the lookups execute and every id denotes an existing product,
    fewer products are fetched than ids were requested, and the message
    lists the id texts that are the [str] of no fetched key: it lists
    nothing exactly when every id is written as [str] writes a key, and
    otherwise names ids of products that exist. *)
Theorem createOrder_duplicate_ids (input : OrderInput) (s : Store)
    (fs : list (option string)) :
  same_key_twice to_python (oi_product_ids input) →
  (∃ e, run (CreateOrder.mutate to_python input) s fs = (Raise e, s))
  ∧ (∀ k crow,
     to_python (oi_customer_id input) = Some k →
     customers s !! k = Some crow →
     quiet 2 fs = true →
     (∀ id, id ∈ oi_product_ids input →
        ∃ k, id ≫= to_python = Some k ∧ is_Some (products s !! k)) →
     let ps := requested_products to_python (oi_product_ids input) s in
     ∃ missing : gset string,
       run (CreateOrder.mutate to_python input) s fs =
         (Raise (ValidationError (StrOf (ValidationError
            (Concat (Text "Products not found: ") (Join ", " missing))))), s)
       ∧ (List.length ps < List.length (oi_product_ids input))%nat
       ∧ (∀ text, text ∈ missing ↔
                  Some text ∈ oi_product_ids input
                  ∧ ¬ ∃ p, p ∈ ps ∧ str_Z p.1 = text)
       ∧ (missing = ∅ ↔
          ∀ text, Some text ∈ oi_product_ids input →
                  ∃ p, p ∈ ps ∧ str_Z p.1 = text)
       ∧ ((∀ id, id ∈ oi_product_ids input →
             ∃ k, id = Some (str_Z k) ∧ to_python (str_Z k) = Some k) →
          missing = ∅)).
Proof.
  intros Hdup. split.
  - destruct (run (CreateOrder.mutate to_python input) s fs)
      as [[res|e] s'] eqn:Hrun.
    + exfalso. apply createOrder_return_inv in Hrun
        as (k & crow & ks & _ & _ & Hks & Hkeys & _ & Hlen & _).
      apply (same_key_twice_dup _ ks Hdup Hkeys).
      apply (fetch_all (products s)).
      rewrite Hlen. by apply Forall2_length in Hkeys.
    + exists e. f_equal.
      by apply (run_raise_db _ (createOrder_raise_db to_python input)) in Hrun.
  - intros k crow Hk Hcrow Hq Hall ps.
    destruct (existing_keys _ s Hall) as [ks Hkeys].
    pose proof (prepare_keys_ok _ _ _ Hkeys) as Hks.
    assert (ps = fetch (products s) ks) as Hps
      by by apply requested_products_fetch.
    assert (List.length (fetch (products s) ks)
            ≠ List.length (oi_product_ids input)) as Hlen.
    { intros Hlen. apply (same_key_twice_dup _ ks Hdup Hkeys).
      apply (fetch_all (products s)).
      rewrite Hlen. by apply Forall2_length in Hkeys. }
    assert (None ∉ oi_product_ids input) as Hnone.
    { intros Hin. by destruct (Hall _ Hin) as (? & ? & _). }
    destruct (join_set_missing ", " (oi_product_ids input) ps Hnone)
      as (missing & Hjoin & Hmissing).
    assert (missing = ∅ ↔
            ∀ text, Some text ∈ oi_product_ids input →
                    ∃ p, p ∈ ps ∧ str_Z p.1 = text) as Hempty.
    { split.
      - intros -> text Hin.
        destruct (decide (Exists (λ p : Product, str_Z p.1 = text) ps))
          as [Hex|Hno]; [by apply Exists_exists in Hex|].
        exfalso. apply (not_elem_of_empty (C:=gset string) text).
        apply Hmissing. split; [done|]. intros Hex.
        by apply Hno, Exists_exists.
      - intros Hcanon. apply set_eq. intros text. rewrite Hmissing.
        split; [|by intros ?%elem_of_empty].
        intros [Hin Hno]. destruct Hno. by apply Hcanon. }
    exists missing.
    split.
    { rewrite (createOrder_count_differs _ _ _ _ k crow ks) by done.
      rewrite <- Hps. by rewrite Hjoin. }
    split.
    { rewrite Hps.
      pose proof (fetch_length_le (products s) ks) as Hle.
      apply Forall2_length in Hkeys. unfold Product in *. lia. }
    split; [done|]. split; [done|].
    intros Hcanon. apply Hempty. intros text Hin.
    destruct (Hcanon _ Hin) as (k' & [= ->] & Hk').
    destruct (Hall _ Hin) as (k'' & Hk'' & [row Hrow]). simpl in Hk''.
    assert (k'' = k') as -> by congruence.
    exists (k', row). split; [|done]. rewrite Hps.
    apply elem_of_fetch. split; [done|].
    apply (prepare_keys_elem to_python _ _ _ Hks), Exists_exists.
    by exists (Some (str_Z k')).
Qed.

End outcomes.



(** Alice orders the pen and a product 99 that the shop does not have. *)
Lemma createOrder_names_missing_witness :
  int_of_numeral "1" = Some 1
  ∧ customers shop !! 1 = Some alice
  ∧ prepare_keys int_of_numeral [Some "1"; Some "99"] = inr [1; 99]
  ∧ quiet 2 [] = true
  ∧ run (CreateOrder.mutate int_of_numeral order_one_missing) shop [] =
    (Raise (ValidationError (StrOf (ValidationError
       (Concat (Text "Products not found: ") (Join ", " {[ "99" ]}))))),
     shop).
Proof.
  split; [reflexivity|]. split; [reflexivity|]. split; [reflexivity|].
  split; [reflexivity|].
  apply (proj1 (proj2 (createOrder_names_missing int_of_numeral
                         order_one_missing shop [] 1 alice [1; 99]
                         eq_refl eq_refl eq_refl eq_refl))
           "1" "99" 1 99 pen);
    first [reflexivity | left; reflexivity].
Defined.

(** C2 as stated fails: Alice orders the pen, written 01, and a product 99
    that the shop does not have.  The pen is found, and the message lists
    01 beside 99. *)
Lemma createOrder_names_found_id :
  int_of_numeral "01" = Some 1
  ∧ products shop !! 1 = Some pen
  ∧ run (CreateOrder.mutate int_of_numeral order_zero_one_missing) shop [] =
    (Raise (ValidationError (StrOf (ValidationError
       (Concat (Text "Products not found: ")
               (Join ", " {[ "01"; "99" ]}))))), shop)
  ∧ "01" ∈ ({[ "01"; "99" ]} : gset string).
Proof.
  split; [reflexivity|]. split; [reflexivity|].
  split; [vm_compute; reflexivity|]. set_solver.
Qed.

(** Alice orders the pen twice. *)
Lemma createOrder_duplicate_ids_witness :
  same_key_twice int_of_numeral [Some "1"; Some "1"]
  ∧ run (CreateOrder.mutate int_of_numeral order_same_twice) shop [] =
    (Raise (ValidationError (StrOf (ValidationError
       (Concat (Text "Products not found: ") (Join ", " ∅))))), shop).
Proof.
  assert (same_key_twice int_of_numeral [Some "1"; Some "1"]) as Hdup.
  { exists 0%nat, 1%nat, "1", "1", 1. by repeat split. }
  split; [exact Hdup|].
  destruct (proj2 (createOrder_duplicate_ids int_of_numeral order_same_twice
                     shop [] Hdup) 1 alice eq_refl eq_refl eq_refl)
    as (missing & Hrun & _ & _ & _ & Hcanon).
  { intros id Hid. exists 1.
    apply elem_of_cons in Hid as [-> | Hid];
      [|apply elem_of_cons in Hid as [-> | Hid]; [|by apply elem_of_nil in Hid]];
      (split; [reflexivity | by exists pen]). }
  rewrite Hrun, Hcanon; [done|].
  intros id Hid. exists 1.
  apply elem_of_cons in Hid as [-> | Hid];
    [|apply elem_of_cons in Hid as [-> | Hid]; [|by apply elem_of_nil in Hid]];
    by split.
Defined.

(** C10 as stated fails: Alice orders the pen twice, written 01.  The pen
    exists, and the message lists 01. *)
Lemma createOrder_duplicate_ids_listed :
  int_of_numeral "01" = Some 1
  ∧ products shop !! 1 = Some pen
  ∧ run (CreateOrder.mutate int_of_numeral order_zero_twice) shop [] =
    (Raise (ValidationError (StrOf (ValidationError
       (Concat (Text "Products not found: ") (Join ", " {[ "01" ]}))))),
     shop)
  ∧ ({[ "01" ]} : gset string) ≠ ∅.
Proof.
  split; [reflexivity|]. split; [reflexivity|].
  split; [vm_compute; reflexivity|]. set_solver.
Qed.

(** *** Exceptions that leave the handler *)

Section exceptions.
Variable to_python : string → option Z.

Lemma createOrder_raises_validation (input : OrderInput) (c c' : Conn)
    (e : pyexc) :
  CreateOrder.mutate to_python input c = (Raise e, c') →
  is_ValidationError e = true.
Proof.
  unfold CreateOrder.mutate. unfold try_except at 1.
  match goal with
  | |- (match ?m with _ => _ end) = _ → _ => destruct m as [[res|e1] c1]
  end; [done|].
  destruct (is_ValidationError e1); by intros [= <- _].
Qed.

Lemma createOrder_wraps_store_error (input : OrderInput) (s : Store)
    (d : string) (fs : list (option string)) (k : Z) :
  to_python (oi_customer_id input) = Some k →
  run (CreateOrder.mutate to_python input) s (Some d :: fs) =
    (Raise (ValidationError
              (Concat (Text "Error creating order: ")
                      (StrOf (DatabaseError d)))), s).
Proof.
  intros Hk. unfold run, CreateOrder.mutate. unfold_run.
  unfold Customer_get. by rewrite Hk.
Qed.

End exceptions.

(** ** The text of a stored decimal ([resolve_price], [resolve_total_amount]) *)

(** digits alone *)
Lemma Decimal_of_str_digits (ds : string) :
  all_digits ds = true → ds ≠ "" →
  Decimal_of_str ds =
    (n ← int_digits ds 0; Some {| d_int := n; d_exp := 0 |}).
Proof.
  intros Hds Hne. unfold Decimal_of_str.
  rewrite (split_at_digits_only is_e ds) by (done || apply is_digit_not_e).
  rewrite (split_at_digits_only is_dot ds) by (done || apply is_digit_not_dot).
  cbn [default]. rewrite str_app_nil_r.
  destruct ds as [|a s0] eqn:E; [done|].
  by destruct (int_digits (String a s0) 0).
Qed.

(** digits [.] digits [E] exponent *)
Lemma Decimal_of_str_E_frac (ip fp es : string) :
  all_digits ip = true → all_digits fp = true → ip +:+ fp ≠ "" →
  Decimal_of_str (ip +:+ "." +:+ fp +:+ "E" +:+ es) =
    (n ← int_digits (ip +:+ fp) 0;
     x ← parse_exponent es;
     Some {| d_int := n; d_exp := x - Z.of_nat (String.length fp) |}).
Proof.
  intros Hip Hfp Hne. unfold Decimal_of_str.
  rewrite split_e_mantissa by done.
  change ("E" +:+ es) with (String "E" es). cbn [split_at].
  change (is_e "E") with true. cbv iota. cbn [fst snd].
  rewrite !str_app_nil_r, split_dot_mantissa by done.
  cbn [default id].
  by destruct (ip +:+ fp) as [|a s0] eqn:E.
Qed.

(** digits [E] exponent *)
Lemma Decimal_of_str_E_int (ip es : string) :
  all_digits ip = true → ip ≠ "" →
  Decimal_of_str (ip +:+ "E" +:+ es) =
    (n ← int_digits ip 0;
     x ← parse_exponent es;
     Some {| d_int := n; d_exp := x |}).
Proof.
  intros Hip Hne. unfold Decimal_of_str.
  rewrite (split_at_digits is_e ip) by (done || apply is_digit_not_e).
  change ("E" +:+ es) with (String "E" es). cbn [split_at].
  change (is_e "E") with true. cbv iota. cbn [fst snd].
  rewrite str_app_nil_r.
  rewrite (split_at_digits_only is_dot ip) by (done || apply is_digit_not_dot).
  cbn [default]. rewrite str_app_nil_r.
  destruct ip as [|a s0] eqn:E; [done|].
  destruct (int_digits (String a s0) 0); simpl; [|done].
  destruct (parse_exponent es); simpl; [|done].
  do 2 f_equal. lia.
Qed.

Lemma str_N_nonempty (n : N) : str_N n ≠ "".
Proof.
  pose proof (ndigits_pos n) as H. unfold ndigits in H.
  intros E. rewrite E in H. simpl in H. lia.
Qed.

(** The exponent field that [Decimal.__str__] writes. *)
Lemma parse_exponent_signed (z : Z) : parse_exponent (str_signed z) = Some z.
Proof.
  unfold str_signed.
  pose proof (int_digits_str_N (Z.abs_N z)) as Hint.
  pose proof (str_N_nonempty (Z.abs_N z)) as Hne.
  destruct (Z.ltb_spec z 0).
  - change ("-" +:+ ?s) with (String "-" s). cbn [parse_exponent].
    change (bool_decide ("-"%char = "-"%char)) with true. cbv iota.
    destruct (str_N (Z.abs_N z)) eqn:E; [done|].
    rewrite Hint. simpl. f_equal. lia.
  - change ("+" +:+ ?s) with (String "+" s). cbn [parse_exponent].
    change (bool_decide ("+"%char = "-"%char)) with false.
    change (bool_decide ("+"%char = "+"%char)) with true. cbv iota.
    destruct (str_N (Z.abs_N z)) eqn:E; [done|].
    rewrite Hint. simpl. f_equal. lia.
Qed.

(** [Decimal(str(d)) == d], with the same exponent. *)
Lemma Decimal_of_str_Decimal_str (d : Decimal) :
  Decimal_of_str (Decimal_str d) = Some d.
Proof.
  destruct d as [n e]. unfold Decimal_str. cbn [d_int d_exp].
  pose proof (int_digits_str_N n) as Hint.
  pose proof (all_digits_str_N n) as Hdig.
  pose proof (str_N_nonempty n) as Hne.
  pose proof (ndigits_pos n) as Hpos. unfold ndigits in Hpos.
  set (ds := str_N n) in *.
  set (len := Z.of_nat (String.length ds)).
  assert (1 ≤ len) as Hlen by (unfold len; lia).
  destruct ((e <=? 0) && (-6 <? e + len)) eqn:Hfix.
  - (* no exponent *)
    apply andb_true_iff in Hfix as [He Hleft].
    apply Z.leb_le in He. apply Z.ltb_lt in Hleft.
    rewrite Z.eqb_refl, str_app_nil_r.
    destruct (Z.leb_spec (e + len) 0) as [Hsmall|Hbig].
    + change ("0" +:+ "." +:+ ?r) with ("0" +:+ "." +:+ r).
      rewrite Decimal_of_str_fixed;
        [|done|by rewrite all_digits_app, all_digits_zeros|done].
      change ("0" +:+ ?r) with (zeros 1 +:+ r).
      rewrite !int_digits_leading_zeros, Hint. cbn [mbind option_bind].
      rewrite str_length_app, zeros_length. do 2 f_equal. unfold len in *. lia.
    + destruct (Z.leb_spec len (e + len)) as [Hint'|Hfrac].
      * assert (e = 0) as -> by lia.
        replace (Z.to_nat (0 + len - len)) with 0%nat by lia.
        cbn [zeros]. rewrite !str_app_nil_r.
        rewrite Decimal_of_str_digits by done.
        by rewrite Hint.
      * rewrite Decimal_of_str_fixed;
          [|by apply all_digits_take|by apply all_digits_drop
           |by rewrite str_take_drop].
        rewrite str_take_drop, Hint. cbn [mbind option_bind].
        rewrite str_drop_length. do 2 f_equal. unfold len in *. lia.
  - (* scientific notation *)
    change (1 <=? 0) with false. cbv iota.
    assert (e + len ≠ 1) as Hne1.
    { intros E. apply andb_false_iff in Hfix as [He|Hl].
      - apply Z.leb_gt in He. lia.
      - apply Z.ltb_ge in Hl. lia. }
    destruct (Z.eqb_spec (e + len) 1) as [|_]; [done|].
    destruct (Z.leb_spec len 1) as [Hone|Hlong].
    + replace (Z.to_nat (1 - len)) with 0%nat by lia.
      cbn [zeros]. rewrite !str_app_nil_r, str_app_nil_l.
      rewrite Decimal_of_str_E_int by done.
      rewrite Hint, parse_exponent_signed. cbn [mbind option_bind].
      do 2 f_equal. lia.
    + rewrite (str_app_assoc "." (str_drop _ ds)).
      rewrite Decimal_of_str_E_frac;
        [|by apply all_digits_take|by apply all_digits_drop
         |by rewrite str_take_drop].
      rewrite str_take_drop, Hint, parse_exponent_signed.
      cbn [mbind option_bind]. rewrite str_drop_length.
      do 2 f_equal. unfold len in *. lia.
Qed.

(** X1: the text that [resolve_price] and [resolve_total_amount] return
    determines the stored decimal: reading it back gives the same
    coefficient and the same exponent.  So two prices with the same text
    are the same decimal. *)
Theorem resolve_price_lossless (p q : Product) (o : Order) :
  Decimal_of_str (resolve_price p) = Some (p_price p.2)
  ∧ Decimal_of_str (resolve_total_amount o) = Some (o_total_amount o.2)
  ∧ (resolve_price p = resolve_price q → p_price p.2 = p_price q.2).
Proof.
  unfold resolve_price, resolve_total_amount.
  split; [apply Decimal_of_str_Decimal_str|].
  split; [apply Decimal_of_str_Decimal_str|].
  intros Heq.
  pose proof (Decimal_of_str_Decimal_str (p_price p.2)) as Hp.
  rewrite Heq, Decimal_of_str_Decimal_str in Hp. congruence.
Qed.

(** ** The digits of a multiple of a power of ten *)

Lemma str_N_go_acc (fuel : nat) :
  ∀ (n : N) (a b : string),
  str_N_go fuel n (a +:+ b) = str_N_go fuel n a +:+ b.
Proof.
  induction fuel as [|fuel IH]; intros n a b; [done|].
  cbn [str_N_go]. destruct (n <? 10)%N.
  - by rewrite str_app_cons.
  - by rewrite <- IH, str_app_cons.
Qed.

Lemma str_N_go_fuel (f1 : nat) :
  ∀ (f2 : nat) (n : N) (acc : string),
  (n < 2 ^ N.of_nat f1)%N → (n < 2 ^ N.of_nat f2)%N →
  (1 ≤ f1)%nat → (1 ≤ f2)%nat →
  str_N_go f1 n acc = str_N_go f2 n acc.
Proof.
  induction f1 as [|f1 IH]; intros f2 n acc H1 H2 Hf1 Hf2; [lia|].
  destruct f2 as [|f2]; [lia|].
  cbn [str_N_go]. destruct (N.ltb_spec n 10) as [|Hn]; [done|].
  rewrite Nat2N.inj_succ, N.pow_succ_r' in H1, H2.
  assert (n / 10 < 2 ^ N.of_nat f1)%N as H1'.
  { apply N.Div0.div_lt_upper_bound. lia. }
  assert (n / 10 < 2 ^ N.of_nat f2)%N as H2'.
  { apply N.Div0.div_lt_upper_bound. lia. }
  apply IH; try done.
  - destruct f1; [|lia]. simpl in H1. lia.
  - destruct f2; [|lia]. simpl in H2. lia.
Qed.

Lemma str_N_times_10 (n : N) : (0 < n)%N → str_N (10 * n) = str_N n +:+ "0".
Proof.
  intros Hn. unfold str_N at 1. cbn [str_N_go].
  destruct (N.ltb_spec (10 * n) 10) as [|_]; [lia|].
  replace (10 * n mod 10)%N with 0%N
    by (rewrite N.mul_comm, N.Div0.mod_mul; done).
  replace (10 * n / 10)%N with n by (rewrite N.mul_comm, N.div_mul; lia).
  change (String (digit_char 0) "") with ("" +:+ "0").
  rewrite str_N_go_acc. f_equal. unfold str_N.
  pose proof (str_N_fuel n) as Hfuel.
  pose proof (str_N_fuel (10 * n)) as Hfuel'.
  rewrite Nat2N.inj_succ, N.pow_succ_r' in Hfuel'.
  apply str_N_go_fuel; try lia.
  assert (1 ≤ N.log2 (10 * n))%N; [|lia].
  change 1%N with (N.log2 2). apply N.log2_le_mono. lia.
Qed.

Lemma zeros_snoc (k : nat) : zeros k +:+ "0" = zeros (S k).
Proof.
  induction k as [|k IH]; [done|].
  cbn [zeros] in *. by rewrite str_app_cons, IH.
Qed.

Lemma str_N_times_pow10 (n : N) (k : nat) :
  (0 < n)%N → str_N (n * 10 ^ N.of_nat k) = str_N n +:+ zeros k.
Proof.
  intros Hn. induction k as [|k IH].
  - by rewrite N.mul_1_r, str_app_nil_r.
  - rewrite Nat2N.inj_succ, N.pow_succ_r'.
    replace (n * (10 * 10 ^ N.of_nat k))%N with (10 * (n * 10 ^ N.of_nat k))%N
      by lia.
    rewrite str_N_times_10 by (pose proof (pow10_pos (N.of_nat k)); nia).
    by rewrite IH, str_app_assoc, zeros_snoc.
Qed.

Lemma str_take_app (a b : string) : str_take (String.length a) (a +:+ b) = a.
Proof.
  induction a as [|c a IH]; rewrite ?str_app_nil_l, ?str_app_cons.
  - by destruct b.
  - cbn [String.length str_take]. by rewrite IH.
Qed.

Lemma str_drop_app (a b : string) : str_drop (String.length a) (a +:+ b) = b.
Proof.
  induction a as [|c a IH]; rewrite ?str_app_nil_l, ?str_app_cons.
  - by destruct b.
  - cbn [String.length str_drop]. by rewrite IH.
Qed.

(** [Decimal.__str__] of a decimal with a negative exponent that is not
    below 1e-6: no exponent is written. *)
Lemma Decimal_str_point (d : Decimal) :
  let ds := str_N (d_int d) in
  let left := d_exp d + Z.of_nat (String.length ds) in
  d_exp d < 0 → -6 < left →
  Decimal_str d =
    if left <=? 0 then "0" +:+ "." +:+ zeros (Z.to_nat (- left)) +:+ ds
    else str_take (Z.to_nat left) ds +:+ "." +:+ str_drop (Z.to_nat left) ds.
Proof.
  intros ds left He Hleft. unfold Decimal_str. fold ds. fold left.
  replace ((d_exp d <=? 0) && (-6 <? left)) with true; cycle 1.
  { symmetry. apply andb_true_iff. split; [apply Z.leb_le|apply Z.ltb_lt]; lia. }
  rewrite Z.eqb_refl, str_app_nil_r.
  destruct (Z.leb_spec left 0) as [|Hpos]; [done|].
  destruct (Z.leb_spec (Z.of_nat (String.length ds)) left) as [|_];
    [unfold left in *; lia|done].
Qed.

(** In the range where [str] writes a float without an exponent, the
    decimal made from that text prints as the same text. *)
Lemma Decimal_str_finite_str (fd : N) (fe : Z) (d : Decimal) :
  fd ≠ 0%N →
  -4 < Z.of_nat (ndigits fd) + fe ≤ 16 →
  Decimal_of_str (finite_str false fd fe) = Some d →
  Decimal_str d = finite_str false fd fe.
Proof.
  intros Hnz Hrange.
  unfold finite_str, ndigits in *. rewrite str_app_nil_l.
  pose proof (int_digits_str_N fd) as Hint.
  pose proof (all_digits_str_N fd) as Hdig.
  pose proof (str_N_nonempty fd) as Hne.
  pose proof (ndigits_pos fd) as Hpos. unfold ndigits in Hpos.
  set (ds := str_N fd) in *.
  set (len := Z.of_nat (String.length ds)) in *.
  set (decpt := len + fe) in *.
  assert (1 ≤ len) as Hlen by (unfold len; lia).
  replace ((decpt <=? -4) || (16 <? decpt)) with false; cycle 1.
  { symmetry. apply orb_false_iff. split; [apply Z.leb_gt|apply Z.ltb_ge]; lia. }
  destruct (Z.leb_spec decpt 0) as [Hsmall|Hbig]; cbv iota.
  - (* 0.000ddd *)
    change ("0." +:+ ?r) with ("0" +:+ "." +:+ r).
    rewrite Decimal_of_str_fixed;
      [|done|by rewrite all_digits_app, all_digits_zeros|done].
    change ("0" +:+ (?a +:+ ?b)) with (zeros 1 +:+ (a +:+ b)).
    rewrite !int_digits_leading_zeros, Hint. cbn [mbind option_bind].
    intros [= <-].
    rewrite Decimal_str_point; cbn [d_int d_exp]; fold ds;
      rewrite ?str_length_app, ?zeros_length; [|lia|unfold len, decpt in *; lia].
    destruct (Z.leb_spec (- Z.of_nat (Z.to_nat (- decpt) + String.length ds)
                          + Z.of_nat (String.length ds)) 0) as [_|];
      [|unfold len, decpt in *; lia].
    change (zeros 1 +:+ ?r) with ("0" +:+ r).
    do 4 f_equal. unfold len, decpt in *. lia.
  - destruct (Z.leb_spec len decpt) as [Hwhole|Hfrac]; cbv iota.
    + (* ddd000.0 *)
      rewrite <- str_app_assoc.
      change ".0" with ("." +:+ "0").
      rewrite Decimal_of_str_fixed;
        [|by rewrite all_digits_app, Hdig, all_digits_zeros|done
         |by destruct ds].
      rewrite !int_digits_app, Hint. cbn [mbind option_bind].
      rewrite int_digits_zeros. cbn [mbind option_bind].
      change (int_digits "0" ?v) with (Some (10 * v + 0)%N).
      intros [= <-].
      set (k := Z.to_nat (decpt - len)).
      assert (str_N (10 * (fd * 10 ^ N.of_nat k) + 0)
              = (ds +:+ zeros k) +:+ "0") as Hds.
      { replace (10 * (fd * 10 ^ N.of_nat k) + 0)%N
          with (fd * 10 ^ N.of_nat (S k))%N
          by (rewrite Nat2N.inj_succ, N.pow_succ_r'; lia).
        rewrite str_N_times_pow10 by lia. fold ds.
        by rewrite <- zeros_snoc, <- str_app_assoc. }
      rewrite Decimal_str_point; cbn [d_int d_exp]; rewrite ?Hds;
        rewrite ?str_length_app, ?zeros_length; cbn [String.length];
        [|lia|unfold len, decpt, k in *; lia].
      destruct (Z.leb_spec (- Z.of_nat 1
                            + Z.of_nat (String.length ds + k + 1)) 0) as [|_];
        [unfold len, decpt, k in *; lia|].
      replace (Z.to_nat (- Z.of_nat 1 + Z.of_nat (String.length ds + k + 1)))
        with (String.length (ds +:+ zeros k))
        by (rewrite str_length_app, zeros_length; lia).
      by rewrite str_take_app, str_drop_app.
    + (* dd.ddd *)
      rewrite Decimal_of_str_fixed;
        [|by apply all_digits_take|by apply all_digits_drop
         |by rewrite str_take_drop].
      rewrite str_take_drop, Hint. cbn [mbind option_bind].
      intros [= <-].
      rewrite Decimal_str_point; cbn [d_int d_exp]; fold ds;
        rewrite ?str_drop_length; [|unfold len, decpt in *; lia..].
      destruct (Z.leb_spec (- Z.of_nat (String.length ds - Z.to_nat decpt)
                            + Z.of_nat (String.length ds)) 0) as [|_];
        [unfold len, decpt in *; lia|].
      replace (Z.to_nat (- Z.of_nat (String.length ds - Z.to_nat decpt)
                         + Z.of_nat (String.length ds)))
        with (Z.to_nat decpt) by (unfold len, decpt in *; lia).
      done.
Qed.

Lemma Decimal_str_float_str (x : PyFloat) (d : Decimal) :
  float_le0 x = false →
  -4 < Z.of_nat (ndigits (f_digits x)) + f_exp x ≤ 16 →
  Decimal_of_str (float_str x) = Some d →
  Decimal_str d = float_str x.
Proof.
  destruct x as [neg fd fe|[|]|]; simpl; [|done..].
  intros [-> Hnz%N.eqb_neq]%orb_false_iff. by apply Decimal_str_finite_str.
Qed.

(** ** More on statements *)

Lemma quiet_cons (n : nat) (fs : list (option string)) :
  quiet 1 fs = true → quiet n (tail fs) = true → quiet (S n) fs = true.
Proof. destruct fs as [|[d|] fs]; [done..|]. by intros _. Qed.

(** A statement that returns has executed. *)
Lemma execute_return_quiet {A : Type} (f : Store → outcome A * Store)
    (c c' : Conn) (a : A) :
  execute f c = (Return a, c') → quiet 1 (faults c) = true.
Proof.
  unfold execute. destruct (needs_rollback c); [done|].
  by destruct (faults c) as [|[d|] fs].
Qed.

(** ** [CreateCustomer]: every outcome *)

(** What a successful call has checked and done. *)
Lemma createCustomer_return_inv (input : CustomerInput) (s s' : Store)
    (fs : list (option string)) (res : CreateCustomer.t) :
  run (CreateCustomer.mutate input) s fs = (Return res, s') →
  CreateCustomer.validate_phone (ci_phone input) = true
  ∧ ¬ email_taken s (ci_email input)
  ∧ quiet 2 fs = true
  ∧ res = {| CreateCustomer.customer :=
               (next_pk (customers s), customer_row input);
             CreateCustomer.message := "Customer created successfully" |}
  ∧ s' = set_customers s
           (<[next_pk (customers s) := customer_row input]> (customers s)).
Proof.
  unfold CreateCustomer.mutate, email_taken.
  destruct (CreateCustomer.validate_phone (ci_phone input)); [|done].
  rewrite <- email_exists_spec. simpl.
  unfold_run. unfold Customer_email_exists, Customer_create, execute. simpl.
  destruct fs as [|[d|] fs]; [|done|]; simpl;
    destruct (existsb _ _) eqn:Hex; simpl; try done.
  - intros [= <- <-]. done.
  - destruct fs as [|[d|] fs]; [|done|]; simpl; intros [= <- <-]; done.
Qed.

(** A failed call has raised a [ValidationError] and has written nothing. *)
Lemma createCustomer_raise_inv (input : CustomerInput) (s s' : Store)
    (fs : list (option string)) (e : pyexc) :
  run (CreateCustomer.mutate input) s fs = (Raise e, s') →
  (∃ msg, e = ValidationError msg) ∧ s' = s.
Proof.
  unfold CreateCustomer.mutate.
  destruct (CreateCustomer.validate_phone (ci_phone input)); simpl;
    [|intros [= <- <-]; eauto].
  unfold_run. unfold Customer_email_exists, Customer_create, execute. simpl.
  destruct fs as [|[d|] fs]; simpl;
    try destruct (existsb _ _) eqn:Hex; simpl;
    try (intros [= <- <-]; eauto; fail);
    try done.
  destruct fs as [|[d|] fs]; simpl; try done; intros [= <- <-]; eauto.
Qed.

(** A call for an email that is in the store, when the check executes. *)
Lemma createCustomer_email_exists (input : CustomerInput) (s : Store)
    (fs : list (option string)) :
  CreateCustomer.validate_phone (ci_phone input) = true →
  email_taken s (ci_email input) → quiet 1 fs = true →
  run (CreateCustomer.mutate input) s fs =
    (Raise (ValidationError (StrOf (ValidationError
       (Text "Email already exists")))), s).
Proof.
  unfold CreateCustomer.mutate, email_taken. intros -> Htaken Hq.
  apply email_exists_spec in Htaken. simpl.
  unfold_run. unfold Customer_email_exists, execute. simpl.
  destruct fs as [|[d|] fs]; [|done|]; simpl; by rewrite Htaken.
Qed.


(** X3: [createCustomer] keeps the emails of the store distinct. *)
Theorem createCustomer_keeps_emails_unique (input : CustomerInput)
    (s s' : Store) (fs : list (option string))
    (r : outcome CreateCustomer.t) :
  unique_emails s →
  run (CreateCustomer.mutate input) s fs = (r, s') →
  unique_emails s'.
Proof.
  intros Huniq Hrun. destruct r as [res|e].
  - apply createCustomer_return_inv in Hrun as (_ & Hfree & _ & _ & ->).
    unfold email_taken in Hfree.
    intros k1 k2 r1 r2. cbn [customers set_customers].
    set (k := next_pk (customers s)).
    destruct (decide (k1 = k)) as [->|Hk1], (decide (k2 = k)) as [->|Hk2];
      [done| | |].
    + rewrite lookup_insert_eq, lookup_insert_ne by done.
      intros [= <-] H2 Hemail. destruct Hfree. exists k2, r2. done.
    + rewrite lookup_insert_ne, lookup_insert_eq by done.
      intros H1 [= <-] Hemail. destruct Hfree. exists k1, r1. done.
    + rewrite !lookup_insert_ne by done. apply Huniq.
  - by apply createCustomer_raise_inv in Hrun as [_ ->].
Qed.

(** X4: once a customer has been created, a later call with the same
    email and an accepted phone fails with "Email already exists",
    whatever its name and phone are, and changes nothing. *)
Theorem createCustomer_email_once (input input' : CustomerInput)
    (s s' : Store) (fs fs' : list (option string)) (res : CreateCustomer.t) :
  run (CreateCustomer.mutate input) s fs = (Return res, s') →
  ci_email input' = ci_email input →
  CreateCustomer.validate_phone (ci_phone input') = true →
  quiet 1 fs' = true →
  run (CreateCustomer.mutate input') s' fs' =
    (Raise (ValidationError (StrOf (ValidationError
       (Text "Email already exists")))), s').
Proof.
  intros Hrun Hemail Hphone Hq.
  apply createCustomer_return_inv in Hrun as (_ & _ & _ & _ & ->).
  apply createCustomer_email_exists; [done| |done].
  exists (next_pk (customers s)), (customer_row input).
  cbn [customers set_customers]. by rewrite lookup_insert_eq.
Qed.

(** Alice is the only customer of the shop. *)
Lemma shop_unique_emails : unique_emails shop.
Proof.
  intros k1 k2 r1 r2.
  change (customers shop) with ({[ 1 := alice ]} : gmap Z CustomerRow).
  intros [-> _]%lookup_singleton_Some [-> _]%lookup_singleton_Some _. done.
Qed.


(** The shop after Bob has become a customer. *)
Lemma createCustomer_keeps_emails_unique_witness :
  unique_emails (run (CreateCustomer.mutate bob) shop []).2.
Proof.
  exact (createCustomer_keeps_emails_unique bob shop _ [] _
           shop_unique_emails
           (surjective_pairing (run (CreateCustomer.mutate bob) shop []))).
Defined.

(** Bob a second time. *)
Lemma createCustomer_email_once_witness :
  let s' := set_customers shop (<[2 := customer_row bob]> (customers shop)) in
  run (CreateCustomer.mutate bob) s' [] =
    (Raise (ValidationError (StrOf (ValidationError
       (Text "Email already exists")))), s').
Proof.
  intros s'.
  assert (run (CreateCustomer.mutate bob) shop [] =
            (Return {| CreateCustomer.customer := (2, customer_row bob);
                       CreateCustomer.message :=
                         "Customer created successfully" |}, s')) as Hrun
    by (vm_compute; reflexivity).
  exact (createCustomer_email_once bob bob shop s' [] [] _ Hrun
           eq_refl eq_refl eq_refl).
Defined.

(** ** [BulkCreateCustomers]: keys, and a statement that fails *)

Lemma valid_records_valid (r : CustomerInput) (rest : list CustomerInput) :
  CreateCustomer.validate_phone (ci_phone r) = true →
  valid_records (r :: rest) = S (valid_records rest).
Proof.
  intros Hv. unfold valid_records.
  by rewrite (filter_cons_True
                (λ r, CreateCustomer.validate_phone (ci_phone r) = true)).
Qed.

Lemma valid_records_invalid (r : CustomerInput) (rest : list CustomerInput) :
  CreateCustomer.validate_phone (ci_phone r) = false →
  valid_records (r :: rest) = valid_records rest.
Proof.
  intros Hv. unfold valid_records.
  rewrite (filter_cons_False
             (λ r, CreateCustomer.validate_phone (ci_phone r) = true));
    [done|congruence].
Qed.

(** What an insert that returns has done. *)
Lemma Customer_create_return_inv (row : CustomerRow) (c c' : Conn)
    (cust : Customer) :
  Customer_create row c = (Return cust, c') →
  cust = (next_pk (customers (db c)), row)
  ∧ db c' = set_customers (db c)
              (<[next_pk (customers (db c)) := row]> (customers (db c)))
  ∧ needs_rollback c' = needs_rollback c
  ∧ in_atomic c' = in_atomic c
  ∧ faults c' = tail (faults c)
  ∧ quiet 1 (faults c) = true.
Proof.
  intros Hc. pose proof (execute_return_quiet _ _ _ _ Hc) as Hq.
  apply execute_return_inv in Hc as (_ & s1 & Hf & ->).
  injection Hf as <- <-. done.
Qed.

Lemma Customer_create_raise_inv (row : CustomerRow) (c c' : Conn) (e : pyexc) :
  Customer_create row c = (Raise e, c') → db c' = db c.
Proof. apply execute_raise_db. by intros s e' s' [= ]. Qed.

(** In a transaction that is marked for rollback the loop inserts nothing
    more. *)
Lemma loop_poisoned (input : list CustomerInput) :
  ∀ (cs : list Customer) (es : list pystr) (c : Conn),
  needs_rollback c = true →
  ∃ es', BulkCreateCustomers.loop (Some <$> input) cs es c
         = (Return (cs, es'), c).
Proof.
  induction input as [|r rest IH]; intros cs es c Hnr.
  - by exists es.
  - rewrite fmap_cons.
    destruct (CreateCustomer.validate_phone (ci_phone r)) eqn:Hv.
    + rewrite (loop_raised r _ cs es c c TransactionManagementError Hv).
      * by apply IH.
      * unfold Customer_create, execute. by rewrite Hnr.
    + rewrite loop_invalid by done. by apply IH.
Qed.

(** The loop inside the atomic block, when the store refuses one of its
    inserts: the transaction ends marked for rollback, and fewer customers
    than valid records are collected. *)
Lemma loop_fault (input : list CustomerInput) :
  ∀ (cs : list Customer) (es : list pystr) (c : Conn),
  in_atomic c = true → needs_rollback c = false →
  quiet (valid_records input) (faults c) = false →
  ∃ cs' es' c',
    BulkCreateCustomers.loop (Some <$> input) cs es c
      = (Return (cs', es'), c')
    ∧ needs_rollback c' = true
    ∧ (List.length cs' < List.length cs + valid_records input)%nat.
Proof.
  induction input as [|r rest IH]; intros cs es c Hat Hnr Hq; [done|].
  rewrite fmap_cons.
  destruct (CreateCustomer.validate_phone (ci_phone r)) eqn:Hv.
  - rewrite valid_records_valid in Hq |- * by done.
    destruct (Customer_create (customer_row r) c) as [[cust|e] c1] eqn:Hc.
    + pose proof Hc as (_ & _ & Hnr1 & Hat1 & Hfs1 & Hq1)%Customer_create_return_inv.
      rewrite (loop_created r _ cs es c c1 cust Hv Hc).
      destruct (IH (cs ++ [cust]) es c1) as (cs' & es' & c' & -> & Hnr' & Hlen).
      * congruence.
      * congruence.
      * rewrite Hfs1. destruct (faults c) as [|[d|] fs]; [|done|done].
        by rewrite quiet_nil in Hq.
      * eexists _, _, _. split; [done|]. split; [done|].
        rewrite length_app in Hlen. simpl in Hlen. lia.
    + rewrite (loop_raised r _ cs es c c1 e Hv Hc).
      assert (needs_rollback c1 = true) as Hnr1.
      { revert Hc. unfold Customer_create, execute. rewrite Hnr.
        destruct (faults c) as [|[d|] fs]; [done| |done].
        intros [= _ <-]. done. }
      destruct (loop_poisoned rest cs
                  (es ++ [BulkCreateCustomers.creation_error r e]) c1 Hnr1)
        as [es' ->].
      eexists _, _, _. split; [done|]. split; [done|]. lia.
  - rewrite valid_records_invalid in Hq |- * by done.
    rewrite loop_invalid by done. by apply IH.
Qed.

(** The customers that the loop collects when it returns, whatever the
    store does: their keys are distinct and were free, their rows are in
    the store the loop leaves, and no other table is touched. *)
Lemma loop_keys (input : list (option CustomerInput)) :
  ∀ (cs cs' : list Customer) (es es' : list pystr) (c c' : Conn),
  BulkCreateCustomers.loop input cs es c = (Return (cs', es'), c') →
  ∃ new : list Customer,
    cs' = cs ++ new
    ∧ NoDup new.*1
    ∧ (∀ k row, (k, row) ∈ new →
         customers (db c) !! k = None ∧ customers (db c') !! k = Some row)
    ∧ customers (db c) ⊆ customers (db c')
    ∧ products (db c') = products (db c)
    ∧ orders (db c') = orders (db c)
    ∧ order_products (db c') = order_products (db c).
Proof.
  induction input as [|[r|] rest IH]; intros cs cs' es es' c c'.
  - intros [= <- <- <-]. exists []. rewrite app_nil_r. split; [done|].
    split; [constructor|]. split; [by intros k row ?%elem_of_nil|done].
  - destruct (CreateCustomer.validate_phone (ci_phone r)) eqn:Hv.
    2:{ rewrite loop_invalid by done. apply IH. }
    destruct (Customer_create (customer_row r) c) as [[cust|e] c1] eqn:Hc.
    + rewrite (loop_created r rest cs es c c1 cust Hv Hc).
      intros Hloop.
      destruct (IH _ _ _ _ _ _ Hloop)
        as (new & -> & Hnd & Hnew & Hsub & Hp & Ho & Hop).
      apply Customer_create_return_inv in Hc as (-> & Hdb & _).
      rewrite Hdb in Hnew, Hsub, Hp, Ho, Hop.
      cbn [customers products orders order_products set_customers]
        in Hnew, Hsub, Hp, Ho, Hop.
      set (k := next_pk (customers (db c))) in *.
      pose proof (next_pk_fresh (customers (db c))) as Hfresh. fold k in Hfresh.
      assert (customers (db c) ⊆ customers (db c')) as Hsub'.
      { etrans; [|exact Hsub]. by apply insert_subseteq. }
      assert (customers (db c') !! k = Some (customer_row r)) as Hk.
      { eapply lookup_weaken; [|exact Hsub]. by rewrite lookup_insert_eq. }
      exists ((k, customer_row r) :: new).
      rewrite <- app_assoc. split; [done|]. split; [|split; [|done]].
      * rewrite fmap_cons. constructor; [|done].
        intros ((k' & row') & Hk' & Hin)%list_elem_of_fmap. simpl in Hk'.
        subst k'. apply Hnew in Hin as [Hin _].
        by rewrite lookup_insert_eq in Hin.
      * intros k' row' [[= -> ->]|Hin]%elem_of_cons; [done|].
        apply Hnew in Hin as [Hnone Hsome]. split; [|done].
        destruct (decide (k' = k)) as [->|Hne]; [done|].
        by rewrite lookup_insert_ne in Hnone.
    + rewrite (loop_raised r rest cs es c c1 e Hv Hc).
      apply Customer_create_raise_inv in Hc.
      intros Hloop.
      destruct (IH _ _ _ _ _ _ Hloop)
        as (new & -> & Hnd & Hnew & Hsub & Hp & Ho & Hop).
      rewrite Hc in *. by exists new.
  - by rewrite loop_null.
Qed.

(** X5: when the store refuses one of the inserts of a batch of records,
    none of them null, [bulkCreateCustomers] still returns, with fewer
    customers than valid records, but the transaction is rolled back: the
    store is as before, and none of the customers that are returned is in
    it. *)
Theorem bulk_store_fault_rolls_back (records : list CustomerInput)
    (s : Store) (fs : list (option string)) :
  quiet (valid_records records) fs = false →
  ∃ res,
    run (BulkCreateCustomers.mutate (Some <$> records)) s fs = (Return res, s)
    ∧ (List.length (BulkCreateCustomers.customers res)
       < valid_records records)%nat
    ∧ ∀ k row, (k, row) ∈ BulkCreateCustomers.customers res →
               customers s !! k = None.
Proof.
  intros Hq. unfold run, BulkCreateCustomers.mutate. unfold_run. unfold atomic.
  cbn [db faults].
  set (c0 := {| db := s; faults := fs; in_atomic := true;
                needs_rollback := false |}).
  destruct (loop_fault records [] [] c0 eq_refl eq_refl Hq)
    as (cs' & es' & c' & Heq & Hnr & Hlen).
  destruct (loop_keys _ _ _ _ _ _ _ Heq) as (new & Hcs & _ & Hnew & _).
  rewrite Heq, Hnr. cbn [db fst snd].
  eexists. split; [done|]. cbn [BulkCreateCustomers.customers].
  split; [simpl in *; lia|].
  intros k row Hin. rewrite Hcs in Hin. by apply Hnew in Hin as [? _].
Qed.

(** X6: the customers that [bulkCreateCustomers] returns have distinct
    keys that were free before the call; and either all of them are in
    the store afterwards, or the store is as before. *)
Theorem bulk_all_or_nothing (input : list (option CustomerInput))
    (s s' : Store) (fs : list (option string)) (res : BulkCreateCustomers.t) :
  run (BulkCreateCustomers.mutate input) s fs = (Return res, s') →
  NoDup (BulkCreateCustomers.customers res).*1
  ∧ (∀ k row, (k, row) ∈ BulkCreateCustomers.customers res →
       customers s !! k = None)
  ∧ (s' = s
     ∨ ∀ k row, (k, row) ∈ BulkCreateCustomers.customers res →
                customers s' !! k = Some row).
Proof.
  unfold run, BulkCreateCustomers.mutate. unfold_run. unfold atomic.
  cbn [db faults].
  set (c0 := {| db := s; faults := fs; in_atomic := true;
                needs_rollback := false |}).
  destruct (BulkCreateCustomers.loop input [] [] c0)
    as [[[cs' es']|e] c'] eqn:Hloop; [|done].
  destruct (loop_keys _ _ _ _ _ _ _ Hloop) as (new & -> & Hnd & Hnew & _).
  cbn [db fst snd app]. intros [= <- <-].
  cbn [BulkCreateCustomers.customers].
  split; [done|]. split.
  - intros k row Hin. by apply Hnew in Hin as [? _].
  - destruct (needs_rollback c'); [by left|right].
    intros k row Hin. by apply Hnew in Hin as [_ ?].
Qed.

(** Bob is inserted, the insert of Dave is refused. *)
Lemma bulk_store_fault_rolls_back_witness :
  ∃ res,
    run (BulkCreateCustomers.mutate [Some bob; Some dave]) shop
      [None; Some "disk full"] = (Return res, shop)
    ∧ (List.length (BulkCreateCustomers.customers res)
       < valid_records [bob; dave])%nat
    ∧ ∀ k row, (k, row) ∈ BulkCreateCustomers.customers res →
               customers shop !! k = None.
Proof.
  apply (bulk_store_fault_rolls_back [bob; dave] shop [None; Some "disk full"]).
  vm_compute. reflexivity.
Defined.

(** Bob and Dave, both inserted. *)
Lemma bulk_all_or_nothing_witness :
  ∃ s',
    run (BulkCreateCustomers.mutate [Some bob; Some dave]) shop [] =
      (Return {| BulkCreateCustomers.customers :=
                   [(2, customer_row bob); (3, customer_row dave)];
                 BulkCreateCustomers.errors := [] |}, s')
    ∧ NoDup [(2, customer_row bob); (3, customer_row dave)].*1.
Proof.
  assert (run (BulkCreateCustomers.mutate [Some bob; Some dave]) shop [] =
            (Return {| BulkCreateCustomers.customers :=
                         [(2, customer_row bob); (3, customer_row dave)];
                       BulkCreateCustomers.errors := [] |},
             (run (BulkCreateCustomers.mutate [Some bob; Some dave]) shop []).2))
    as Hrun by (vm_compute; reflexivity).
  eexists. split; [exact Hrun|].
  exact (proj1 (bulk_all_or_nothing _ _ _ _ _ Hrun)).
Defined.

(** ** [CreateProduct]: every outcome *)

Lemma Decimal_of_repr_DNum (x : PyFloat) (d : Decimal) :
  Decimal_of_repr (float_str x) = Some (DNum d) →
  is_finite x = true ∧ Decimal_of_str (float_str x) = Some d.
Proof.
  destruct x as [neg fd fe|[|]|]; [|done..].
  unfold Decimal_of_repr. repeat case_bool_decide; [done..|].
  destruct (Decimal_of_str _) as [d'|]; [|done]. by intros [= ->].
Qed.

(** What a successful call has checked and done. *)
Lemma createProduct_return_inv (input : ProductInput) (s s' : Store)
    (fs : list (option string)) (res : CreateProduct.t) :
  run (CreateProduct.mutate input) s fs = (Return res, s') →
  ∃ (price : Decimal) (stock : Z),
    is_finite (pi_price input) = true
    ∧ float_le0 (pi_price input) = false
    ∧ pi_stock input = Some stock ∧ 0 ≤ stock
    ∧ quiet 1 fs = true
    ∧ Decimal_of_str (float_str (pi_price input)) = Some price
    ∧ res = {| CreateProduct.product :=
                 (next_pk (products s),
                  {| p_name := pi_name input; p_price := price;
                     p_stock := stock |}) |}
    ∧ s' = set_products s
             (<[next_pk (products s) :=
                  {| p_name := pi_name input; p_price := price;
                     p_stock := stock |}]> (products s)).
Proof.
  unfold CreateProduct.mutate.
  destruct (float_le0 (pi_price input)) eqn:Hprice; [done|].
  destruct (pi_stock input) as [stock|]; [|done].
  destruct (Z.ltb_spec stock 0) as [|Hstock]; [done|].
  destruct (Decimal_of_repr (float_str (pi_price input))) as [[price| |]|]
    eqn:Hrepr; [|done..].
  apply Decimal_of_repr_DNum in Hrepr as [Hfin Hd].
  unfold_run. unfold Product_create, execute. simpl.
  destruct fs as [|[d|] fs]; [|done|]; simpl; intros [= <- <-];
    by exists price, stock.
Qed.

(** What a failed call has raised; it has written nothing. *)
Lemma createProduct_raise_inv (input : ProductInput) (s s' : Store)
    (fs : list (option string)) (e : pyexc) :
  run (CreateProduct.mutate input) s fs = (Raise e, s') →
  s' = s
  ∧ ((e = ValidationError (Text "Price must be positive")
      ∧ float_le0 (pi_price input) = true)
     ∨ (e = TypeError
        ∧ float_le0 (pi_price input) = false ∧ pi_stock input = None)
     ∨ (∃ stock, e = ValidationError (Text "Stock cannot be negative")
        ∧ float_le0 (pi_price input) = false
        ∧ pi_stock input = Some stock ∧ stock < 0)
     ∨ (∃ stock value,
          e = ValidationError (StrOf (ValidationError (Invalid value)))
          ∧ is_finite (pi_price input) = false
          ∧ float_le0 (pi_price input) = false
          ∧ pi_stock input = Some stock ∧ 0 ≤ stock)
     ∨ (∃ stock d fs', e = DatabaseError d ∧ fs = Some d :: fs'
        ∧ is_finite (pi_price input) = true
        ∧ float_le0 (pi_price input) = false
        ∧ pi_stock input = Some stock ∧ 0 ≤ stock)).
Proof.
  unfold CreateProduct.mutate.
  destruct (float_le0 (pi_price input)) eqn:Hprice.
  { intros [= <- <-]. split; [done|]. by left. }
  destruct (pi_stock input) as [stock|].
  2:{ intros [= <- <-]. split; [done|]. right. by left. }
  destruct (Z.ltb_spec stock 0) as [|Hstock].
  { intros [= <- <-]. split; [done|]. do 2 right. left. by exists stock. }
  destruct (is_finite (pi_price input)) eqn:Hfin.
  - destruct (Decimal_of_float_str (pi_price input)) as (price & Hd & _);
      [done|by apply float_le0_false|].
    rewrite (Decimal_of_repr_finite _ _ Hd).
    unfold_run. unfold Product_create, execute. simpl.
    destruct fs as [|[d|] fs]; [done| |done]. simpl.
    intros [= <- <-]. split; [done|]. do 4 right. by exists stock, d, fs.
  - destruct (pi_price input) as [neg fd fe|[|]|]; try done.
    + intros [= <- <-]. split; [done|]. do 3 right. left.
      by exists stock, "Infinity".
    + intros [= <- <-]. split; [done|]. do 3 right. left.
      by exists stock, "NaN".
Qed.


(** X8: for a price that Python writes without an exponent (from 0.0001
    up to, not including, 1e16), the price text of the product that
    [createProduct] returns is the text of the input float, digit for
    digit. *)
Theorem createProduct_price_text (input : ProductInput) (s s' : Store)
    (fs : list (option string)) (res : CreateProduct.t) :
  run (CreateProduct.mutate input) s fs = (Return res, s') →
  -4 < Z.of_nat (ndigits (f_digits (pi_price input))) + f_exp (pi_price input)
     ≤ 16 →
  resolve_price (CreateProduct.product res) = float_str (pi_price input).
Proof.
  intros (price & stock & _ & Hpos & _ & _ & _ & Hprice & -> & _)%createProduct_return_inv
    Hrange.
  unfold resolve_price. cbn [CreateProduct.product snd p_price].
  by apply Decimal_str_float_str.
Qed.


(** The widget at 9.99. *)
Lemma createProduct_price_text_witness :
  let row := {| p_name := "Widget"; p_price := {| d_int := 999; d_exp := -2 |};
                p_stock := 5 |} in
  resolve_price (3, row) = "9.99".
Proof.
  intros row.
  assert (run (CreateProduct.mutate widget) shop [] =
            (Return {| CreateProduct.product := (3, row) |},
             (run (CreateProduct.mutate widget) shop []).2)) as Hrun
    by (vm_compute; reflexivity).
  refine (createProduct_price_text widget shop _ [] _ Hrun _).
  vm_compute. split; [reflexivity|]. intros H. discriminate H.
Defined.

(** ** [CreateOrder]: when a call succeeds *)

Lemma fetch_length_all {A : Type} (t : gmap Z A) (ks : list Z) :
  NoDup ks → (∀ k, k ∈ ks → is_Some (t !! k)) →
  List.length (fetch t ks) = List.length ks.
Proof.
  intros Hnd Hall. rewrite <- (length_fmap fst (fetch t ks)).
  apply Permutation_length, NoDup_Permutation;
    [apply NoDup_fetch_keys|done|].
  intros k. split; [apply fetch_keys_incl|].
  intros Hk. destruct (Hall k Hk) as [row Hrow].
  apply list_elem_of_fmap. exists (k, row). split; [done|].
  by apply elem_of_fetch.
Qed.

Section success.
Variable to_python : string → option Z.

(** The five statements of a call that passes its checks. *)
Lemma createOrder_run_ok (input : OrderInput) (s : Store)
    (fs : list (option string)) (k : Z) (crow : CustomerRow) (ks : list Z) :
  to_python (oi_customer_id input) = Some k →
  customers s !! k = Some crow →
  prepare_keys to_python (oi_product_ids input) = inr ks →
  oi_product_ids input ≠ [] →
  List.length (fetch (products s) ks) = List.length (oi_product_ids input) →
  quiet 5 fs = true →
  let ps := fetch (products s) ks in
  let ko := next_pk (orders s) in
  let row :=
    {| o_customer := k;
       o_total_amount := dec_sum ((λ p : Product, p_price p.2) <$> ps);
       o_order_date := default (clock s) (oi_order_date input) |} in
  run (CreateOrder.mutate to_python input) s fs =
    (Return {| CreateOrder.order := (ko, row);
               CreateOrder.message := "Order created successfully" |},
     {| customers := customers s;
        products := products s;
        orders := <[ko := row]> (orders s);
        order_products := <[ko := list_to_set ps.*1]> (order_products s);
        clock := clock s |}).
Proof.
  intros Hk Hrow Hks Hne Hlen Hq ps ko row.
  apply quiet_tail in Hq as [Hq1 Hq].
  apply quiet_tail in Hq as [Hq2 Hq].
  apply quiet_tail in Hq as [Hq3 Hq].
  apply quiet_tail in Hq as [Hq4 Hq5].
  assert (ks ≠ []) as Hkne.
  { intros ->. rewrite fetch_nil in Hlen.
    by destruct (oi_product_ids input). }
  unfold run, CreateOrder.mutate. unfold_run.
  rewrite (Customer_get_found _ _ k crow) by done.
  destruct (oi_product_ids input) as [|id ids] eqn:Hids; [done|].
  rewrite (Product_filter_in_fetched _ _ ks) by done.
  unfold with_db. cbn [db faults in_atomic needs_rollback].
  match goal with
  | |- context [negb (?a =? ?b)%nat] => destruct (Nat.eqb_spec a b) as [_|Hno]
  end; [|by destruct Hno].
  cbn [negb].
  unfold atomic. cbn [db faults in_atomic needs_rollback].
  unfold Order_create, Order_products_set, Order_save.
  rewrite execute_quiet by done.
  unfold with_db. cbn [db faults in_atomic needs_rollback fst snd].
  rewrite execute_quiet by done.
  unfold with_db. cbn [db faults in_atomic needs_rollback fst snd].
  rewrite execute_quiet by done.
  unfold with_db. cbn [db faults in_atomic needs_rollback fst snd].
  unfold set_orders, set_order_products.
  cbn [customers products orders order_products clock o_customer
         o_order_date].
  by rewrite insert_insert_eq.
Qed.

(** A call that returns has executed its five statements. *)
Lemma createOrder_return_quiet (input : OrderInput) (s s' : Store)
    (fs : list (option string)) (res : CreateOrder.t) :
  run (CreateOrder.mutate to_python input) s fs = (Return res, s') →
  quiet 5 fs = true.
Proof.
  unfold run.
  destruct (CreateOrder.mutate _ _ _) as [r c'] eqn:Hm.
  intros [= -> <-]. revert Hm.
  unfold CreateOrder.mutate. unfold_run.
  destruct (Customer_get to_python (oi_customer_id input) _)
    as [[cust|e1] c1] eqn:Hget; [|by destruct e1].
  unfold Customer_get in Hget.
  destruct (to_python (oi_customer_id input)) as [k|] eqn:Hk; [|done].
  pose proof (execute_return_quiet _ _ _ _ Hget) as Hq1.
  apply execute_return_inv in Hget as (_ & s1 & Hf & ->).
  cbn [db faults] in *.
  destruct (customers s !! k) as [crow|] eqn:Hrow; [|done].
  injection Hf as <- <-.
  destruct (oi_product_ids input) as [|id ids] eqn:Hids; [done|].
  destruct (Product_filter_in to_python (id :: ids) _)
    as [[ps|e2] c2] eqn:Hfil; [|by destruct e2].
  unfold Product_filter_in in Hfil.
  destruct (prepare_keys to_python (id :: ids)) as [bad|ks] eqn:Hks; [done|].
  destruct ks as [|k0 ks0].
  { injection Hfil as <- <-. cbn [List.length Nat.eqb negb].
    unfold CreateOrder.join_set. by case_bool_decide. }
  pose proof (execute_return_quiet _ _ _ _ Hfil) as Hq2.
  apply execute_return_inv in Hfil as (_ & s2 & Hf & ->).
  unfold with_db in Hf, Hq2. cbn [db faults] in Hf, Hq2. injection Hf as <- <-.
  destruct (negb _).
  { unfold CreateOrder.join_set. by case_bool_decide. }
  match goal with
  | |- context [atomic ?b ?c] =>
      destruct (atomic b c) as [[o|e3] c3] eqn:Hat
  end; [|by destruct e3].
  intros _.
  apply atomic_return_inv in Hat as (c4 & Hbody & _).
  revert Hbody. unfold with_db. cbn [db faults].
  destruct (Order_create _ _ _ _) as [[o1|e4] c5] eqn:Hcreate; [|done].
  pose proof (execute_return_quiet _ _ _ _ Hcreate) as Hq3.
  apply execute_return_inv in Hcreate as (_ & s3 & _ & ->).
  cbn [faults] in Hq3.
  destruct (Order_products_set _ _ _) as [[[]|e5] c6] eqn:Hset; [|done].
  pose proof (execute_return_quiet _ _ _ _ Hset) as Hq4.
  apply execute_return_inv in Hset as (_ & s4 & _ & ->).
  unfold with_db in Hq4. cbn [faults] in Hq4.
  destruct (Order_save _ _) as [[[]|e6] c7] eqn:Hsave; [|done].
  pose proof (execute_return_quiet _ _ _ _ Hsave) as Hq5.
  unfold with_db in Hq5. cbn [faults] in Hq5.
  intros _.
  repeat (apply quiet_cons; [done|]). done.
Qed.

(** X9: [createOrder] succeeds exactly when the customer id denotes a
    customer of the store, the list of product ids is not empty, the ids
    denote pairwise distinct keys that are all products of the store, and
    its five statements execute. *)
Theorem createOrder_succeeds_iff (input : OrderInput) (s : Store)
    (fs : list (option string)) :
  (∃ res s', run (CreateOrder.mutate to_python input) s fs = (Return res, s'))
  ↔ (∃ k ks,
       to_python (oi_customer_id input) = Some k
       ∧ is_Some (customers s !! k)
       ∧ oi_product_ids input ≠ []
       ∧ Forall2 (λ id kp, id ≫= to_python = Some kp)
           (oi_product_ids input) ks
       ∧ NoDup ks
       ∧ ∀ kp, kp ∈ ks → is_Some (products s !! kp))
    ∧ quiet 5 fs = true.
Proof.
  split.
  - intros (res & s' & Hrun).
    split; [|by eapply createOrder_return_quiet].
    apply createOrder_return_inv in Hrun
      as (k & crow & ks & Hk & Hrow & Hks & Hkeys & Hne & Hlen & _).
    exists k, ks. split; [done|]. split; [by exists crow|]. split; [done|].
    split; [done|].
    apply (fetch_all (products s)).
    rewrite Hlen.
    exact (Forall2_length _ _ _ Hkeys).
  - intros [(k & ks & Hk & [crow Hrow] & Hne & Hks & Hnd & Hall) Hq].
    eexists _, _.
    apply (createOrder_run_ok input s fs k crow ks); try done.
    + by apply prepare_keys_ok.
    + rewrite fetch_length_all by done. symmetry. by eapply Forall2_length.
Qed.

(** X10: the lookups of [createOrder].  A customer id that the key field
    rejects ends the call with "Error creating order: " around the
    [ValueError]; an id that denotes no customer ends it with "Customer
    not found"; both whatever the product ids are, even if there is none.
    With the customer found, a product id that the key field rejects ends
    the call in the same way as a rejected customer id. *)
Theorem createOrder_lookup_errors (input : OrderInput) (s : Store)
    (fs : list (option string)) :
  (to_python (oi_customer_id input) = None →
     run (CreateOrder.mutate to_python input) s fs =
       (Raise (ValidationError
                 (Concat (Text "Error creating order: ")
                         (StrOf (ValueError (oi_customer_id input))))), s))
  ∧ (∀ k, to_python (oi_customer_id input) = Some k →
     customers s !! k = None → quiet 1 fs = true →
     run (CreateOrder.mutate to_python input) s fs =
       (Raise (ValidationError (StrOf (ValidationError
          (Text "Customer not found")))), s))
  ∧ (∀ k crow bad, to_python (oi_customer_id input) = Some k →
     customers s !! k = Some crow → quiet 1 fs = true →
     prepare_keys to_python (oi_product_ids input) = inl bad →
     run (CreateOrder.mutate to_python input) s fs =
       (Raise (ValidationError
                 (Concat (Text "Error creating order: ")
                         (StrOf (ValueError bad)))), s)).
Proof.
  split; [|split].
  - intros Hk. unfold run, CreateOrder.mutate, Customer_get. unfold_run.
    by rewrite Hk.
  - intros k Hk Hrow Hq.
    unfold run, CreateOrder.mutate, Customer_get. unfold_run.
    rewrite Hk, execute_quiet by done. cbn [db fst snd]. by rewrite Hrow.
  - intros k crow bad Hk Hrow Hq Hbad.
    unfold run, CreateOrder.mutate. unfold_run.
    rewrite (Customer_get_found _ _ k crow) by done.
    destruct (oi_product_ids input) as [|id ids] eqn:Hids; [done|].
    unfold Product_filter_in. by rewrite Hbad.
Qed.

End success.

(** Alice orders the pen and the ink. *)
Lemma createOrder_succeeds_iff_witness :
  ∃ res s', run (CreateOrder.mutate int_of_numeral order_both) shop [] =
              (Return res, s').
Proof.
  apply (createOrder_succeeds_iff int_of_numeral order_both shop []).
  split; [|reflexivity].
  exists 1, [1; 2]. split; [reflexivity|]. split; [by eexists|].
  split; [done|]. split; [by repeat constructor|].
  split.
  - apply NoDup_cons. split; [|apply NoDup_singleton].
    intros H%list_elem_of_singleton. discriminate.
  - intros kp [->|[->|H%elem_of_nil]%elem_of_cons]%elem_of_cons;
      [by eexists..|done].
Defined.

(** An order for a customer 7 that the shop does not have. *)
Lemma createOrder_lookup_errors_witness :
  run (CreateOrder.mutate int_of_numeral
         {| oi_customer_id := "7"; oi_product_ids := [];
            oi_order_date := None |}) shop [] =
    (Raise (ValidationError (StrOf (ValidationError
       (Text "Customer not found")))), shop).
Proof.
  exact (proj1 (proj2 (createOrder_lookup_errors int_of_numeral
                         {| oi_customer_id := "7"; oi_product_ids := [];
                            oi_order_date := None |} shop []))
           7 eq_refl eq_refl eq_refl).
Defined.

(** ** [CreateOrder]: the order of the ids, and a repeated call *)

Section ids.
Variable to_python : string → option Z.

Lemma prepare_keys_total (ids : list (option string)) :
  (∀ text, Some text ∈ ids → is_Some (to_python text)) →
  ∃ ks, prepare_keys to_python ids = inr ks.
Proof.
  induction ids as [|[id|] ids IH]; intros Hall; [by exists []| |].
  - destruct (Hall id) as [k Hk]; [by left|].
    destruct IH as [ks Hks]; [intros id' Hin; apply Hall; by right|].
    exists (k :: ks). simpl. by rewrite Hk, Hks.
  - destruct IH as [ks Hks]; [intros id' Hin; apply Hall; by right|].
    by exists ks.
Qed.

(** The rows that the filter fetches depend on the set of the ids only. *)
Lemma Product_filter_in_Permutation (ids ids' : list (option string))
    (c : Conn) :
  ids ≡ₚ ids' → (∀ text, Some text ∈ ids → is_Some (to_python text)) →
  Product_filter_in to_python ids c = Product_filter_in to_python ids' c.
Proof.
  intros Hperm Hall.
  destruct (prepare_keys_total ids Hall) as [ks Hks].
  destruct (prepare_keys_total ids') as [ks' Hks'].
  { intros id Hin. apply Hall. by rewrite Hperm. }
  unfold Product_filter_in. rewrite Hks, Hks'.
  assert (∀ k, k ∈ ks ↔ k ∈ ks') as Hsame.
  { intros k.
    rewrite (prepare_keys_elem to_python ids ks k Hks).
    rewrite (prepare_keys_elem to_python ids' ks' k Hks').
    rewrite !Exists_exists. by setoid_rewrite Hperm. }
  assert (∀ t : gmap Z ProductRow, fetch t ks = fetch t ks') as Hfetch.
  { intros t. unfold fetch. apply list_filter_iff. intros [k row]. simpl.
    apply Hsame. }
  destruct ks as [|k ks], ks' as [|k' ks'].
  - done.
  - exfalso. eapply elem_of_nil, Hsame. by left.
  - exfalso. eapply elem_of_nil, Hsame. by left.
  - unfold execute. destruct (needs_rollback c); [done|].
    destruct (faults c) as [|[d|] fs]; by rewrite ?Hfetch.
Qed.

(** X11: the order in which the product ids are listed plays no role.
    Two [createOrder] calls that differ by a rearrangement of ids, of which
    the key field accepts every text, succeed or fail together and leave
    the same store: when they succeed they return the same order, and when
    they fail their messages are the same, where the message that lists
    the ids not found lists the same set of ids (the order in which it
    lists them is not determined). *)
Theorem createOrder_ids_order_irrelevant (cid : string)
    (date : option DateTime) (ids ids' : list (option string)) (s : Store)
    (fs : list (option string)) :
  ids ≡ₚ ids' → (∀ text, Some text ∈ ids → is_Some (to_python text)) →
  run (CreateOrder.mutate to_python
         {| oi_customer_id := cid; oi_product_ids := ids;
            oi_order_date := date |}) s fs =
  run (CreateOrder.mutate to_python
         {| oi_customer_id := cid; oi_product_ids := ids';
            oi_order_date := date |}) s fs.
Proof.
  intros Hperm Hall. unfold run, CreateOrder.mutate. unfold_run.
  cbn [oi_customer_id oi_product_ids oi_order_date].
  destruct (Customer_get to_python cid _) as [[cust|e] c1]; [|by destruct e].
  pose proof (Product_filter_in_Permutation ids ids' c1 Hperm Hall) as Hfil.
  assert (List.length ids = List.length ids') as Hlen
    by by apply Permutation_length.
  assert (∀ ps, CreateOrder.missing_products ids ps
                = CreateOrder.missing_products ids' ps) as Hmiss.
  { intros ps. unfold CreateOrder.missing_products.
    by rewrite (list_to_set_perm_L ids ids' Hperm). }
  destruct ids as [|id ids0], ids' as [|id' ids0'];
    [done|by apply Permutation_nil_l in Hperm
    |by apply Permutation_nil_r in Hperm|].
  rewrite Hfil.
  destruct (Product_filter_in to_python (id' :: ids0') c1) as [[ps|e] c2];
    [|done].
  rewrite Hlen, Hmiss. done.
Qed.

(** X12: [createOrder] is not idempotent.  When a call has succeeded, the
    same call made again, at that or any other time, succeeds again if its
    statements execute: it creates a second order under another key, with
    the same customer and total, and the first order is kept.  The two
    orders have the date of the input when it gives one; without one the
    second order has the time of the second call. *)
Theorem createOrder_again (input : OrderInput) (s s' : Store)
    (fs fs' : list (option string)) (res : CreateOrder.t) (now : DateTime) :
  run (CreateOrder.mutate to_python input) s fs = (Return res, s') →
  quiet 5 fs' = true →
  ∃ res' s'',
    run (CreateOrder.mutate to_python input) (set_clock s' now) fs'
      = (Return res', s'')
    ∧ (CreateOrder.order res').1 ≠ (CreateOrder.order res).1
    ∧ o_customer (CreateOrder.order res').2
      = o_customer (CreateOrder.order res).2
    ∧ o_total_amount (CreateOrder.order res').2
      = o_total_amount (CreateOrder.order res).2
    ∧ o_order_date (CreateOrder.order res').2
      = default now (oi_order_date input)
    ∧ o_order_date (CreateOrder.order res).2
      = default (clock s) (oi_order_date input)
    ∧ orders s'' !! (CreateOrder.order res).1 = Some (CreateOrder.order res).2
    ∧ orders s'' !! (CreateOrder.order res').1
      = Some (CreateOrder.order res').2.
Proof.
  intros Hrun Hq.
  apply createOrder_return_inv in Hrun
    as (k & crow & ks & Hk & Hrow & Hks & _ & Hne & Hlen & -> & ->).
  eexists _, _. split.
  { apply (createOrder_run_ok to_python input _ fs' k crow ks); done. }
  cbn [CreateOrder.order customers products orders clock set_clock fst snd
         o_customer o_total_amount o_order_date].
  set (ko := next_pk (orders s)).
  set (row := {| o_customer := k; o_total_amount := _; o_order_date := _ |}).
  pose proof (next_pk_fresh (<[ko := row]> (orders s))) as Hfresh.
  assert (next_pk (<[ko := row]> (orders s)) ≠ ko) as Hneq.
  { intros E. rewrite E, lookup_insert_eq in Hfresh. done. }
  split; [done|]. split; [done|]. split; [done|]. split; [done|].
  split; [done|].
  split; [|by rewrite lookup_insert_eq].
  by rewrite lookup_insert_ne, lookup_insert_eq.
Qed.

End ids.

(** The pen and the ink, in both orders. *)
Lemma createOrder_ids_order_irrelevant_witness :
  run (CreateOrder.mutate int_of_numeral
         {| oi_customer_id := "1"; oi_product_ids := [Some "1"; Some "2"];
            oi_order_date := None |}) shop [] =
  run (CreateOrder.mutate int_of_numeral
         {| oi_customer_id := "1"; oi_product_ids := [Some "2"; Some "1"];
            oi_order_date := None |}) shop [].
Proof.
  apply (createOrder_ids_order_irrelevant int_of_numeral "1" None
           [Some "1"; Some "2"] [Some "2"; Some "1"] shop []).
  - apply perm_swap.
  - intros text Hin. rewrite !elem_of_cons, elem_of_nil in Hin.
    destruct Hin as [[= ->]|[[= ->]|[]]]; by eexists.
Defined.

(** The order for the pen and the ink, placed twice, the second time an
    hour later. *)
Lemma createOrder_again_witness :
  ∃ res' s'',
    run (CreateOrder.mutate int_of_numeral order_both)
      (set_clock (run (CreateOrder.mutate int_of_numeral order_both) shop []).2
         1700003600) [] =
      (Return res', s'')
    ∧ (CreateOrder.order res').1 ≠ 1
    ∧ o_order_date (CreateOrder.order res').2 = 1700003600.
Proof.
  destruct (createOrder_again int_of_numeral order_both shop
              (run (CreateOrder.mutate int_of_numeral order_both) shop []).2
              [] []
              {| CreateOrder.order :=
                   (1, {| o_customer := 1;
                          o_total_amount := {| d_int := 1550; d_exp := -2 |};
                          o_order_date := 1700000000 |});
                 CreateOrder.message := "Order created successfully" |}
              1700003600)
    as (res' & s'' & Hrun & Hneq & _ & _ & Hdate & _);
    [by vm_compute|reflexivity|].
  by exists res', s''.
Defined.

(** ** [Query]: lookups by id *)

Section lookups.
Variable to_python : string → option Z.

(** X13: for an id that denotes the key [k], and when the statement
    executes, each of [resolve_customer], [resolve_product] and
    [resolve_order] returns the row stored under [k] and returns [None],
    without an exception, when there is none; the store is as before. *)
Theorem resolve_by_id_lookup (id : string) (k : Z) (s : Store)
    (fs : list (option string)) :
  to_python id = Some k → quiet 1 fs = true →
  run (Query.resolve_customer to_python id) s fs =
    (Return (pair k <$> customers s !! k), s)
  ∧ run (Query.resolve_product to_python id) s fs =
    (Return (pair k <$> products s !! k), s)
  ∧ run (Query.resolve_order to_python id) s fs =
    (Return (pair k <$> orders s !! k), s).
Proof.
  intros Hid Hq.
  unfold Query.resolve_customer, Query.resolve_product, Query.resolve_order,
    Customer_get, Product_get, Order_get.
  rewrite Hid. unfold_run. unfold execute. simpl.
  destruct fs as [|[d|] fs]; [|done|]; simpl;
    destruct (customers s !! k), (products s !! k), (orders s !! k); done.
Qed.

(** X14: the lookups turn nothing but [DoesNotExist] into [None]: a text
    that the key field rejects leaves each resolver as a [ValueError], and
    a statement that the store refuses as a [DatabaseError]. *)
Theorem resolve_by_id_errors (id : string) (s : Store)
    (fs : list (option string)) :
  (to_python id = None →
     run (Query.resolve_customer to_python id) s fs = (Raise (ValueError id), s)
     ∧ run (Query.resolve_product to_python id) s fs = (Raise (ValueError id), s)
     ∧ run (Query.resolve_order to_python id) s fs = (Raise (ValueError id), s))
  ∧ (∀ k d fs', to_python id = Some k → fs = Some d :: fs' →
     run (Query.resolve_customer to_python id) s fs = (Raise (DatabaseError d), s)
     ∧ run (Query.resolve_product to_python id) s fs = (Raise (DatabaseError d), s)
     ∧ run (Query.resolve_order to_python id) s fs = (Raise (DatabaseError d), s)).
Proof.
  unfold Query.resolve_customer, Query.resolve_product, Query.resolve_order,
    Customer_get, Product_get, Order_get.
  split.
  - by intros ->.
  - intros k d fs' -> ->. done.
Qed.

End lookups.

(** Customer 1 of the shop is found; there is no product 7. *)
Lemma resolve_by_id_lookup_witness :
  run (Query.resolve_customer int_of_numeral "1") shop [] =
    (Return (Some (1, alice)), shop)
  ∧ run (Query.resolve_product int_of_numeral "7") shop [] = (Return None, shop).
Proof.
  pose proof (resolve_by_id_lookup int_of_numeral "1" 1 shop [] eq_refl eq_refl)
    as (H1 & _ & _).
  pose proof (resolve_by_id_lookup int_of_numeral "7" 7 shop [] eq_refl eq_refl)
    as (_ & H2 & _).
  split; [exact H1 | exact H2].
Defined.

(** A customer id that is not a number. *)
Lemma resolve_by_id_errors_witness :
  run (Query.resolve_customer int_of_numeral "abc") shop [] =
    (Raise (ValueError "abc"), shop).
Proof.
  exact (proj1 (proj1 (resolve_by_id_errors int_of_numeral "abc" shop [])
                  eq_refl)).
Defined.

(** ** A created object can be fetched back *)

Section round_trips.
Variable to_python : string → option Z.

(** X15: the customer that [createCustomer] returns is what
    [resolve_customer] returns for its id afterwards, and the listing of
    [resolve_customers] has gained this customer and nothing else. *)
Theorem createCustomer_then_resolve (input : CustomerInput) (s s' : Store)
    (fs fs' : list (option string)) (res : CreateCustomer.t) :
  run (CreateCustomer.mutate input) s fs = (Return res, s') →
  to_python (str_Z (CreateCustomer.customer res).1)
    = Some (CreateCustomer.customer res).1 →
  quiet 1 fs' = true →
  run (Query.resolve_customer to_python
         (str_Z (CreateCustomer.customer res).1)) s' fs' =
    (Return (Some (CreateCustomer.customer res)), s')
  ∧ ∃ before after,
      run Query.resolve_customers s fs' = (Return before, s)
      ∧ run Query.resolve_customers s' fs' = (Return after, s')
      ∧ after ≡ₚ CreateCustomer.customer res :: before.
Proof.
  intros (_ & _ & _ & -> & ->)%createCustomer_return_inv.
  cbn [CreateCustomer.customer fst]. intros Hid Hq.
  unfold Query.resolve_customer, Query.resolve_customers, Customer_all,
    Customer_get.
  rewrite Hid. unfold_run. unfold execute. simpl.
  destruct fs' as [|[d|] fs']; [|done|]; simpl; rewrite lookup_insert_eq;
    (split; [done|]); eexists _, _; (split; [done|]); (split; [done|]);
    apply map_to_list_insert, next_pk_fresh.
Qed.

(** X16: the same for [createProduct], [resolve_product] and
    [resolve_products]. *)
Theorem createProduct_then_resolve (input : ProductInput) (s s' : Store)
    (fs fs' : list (option string)) (res : CreateProduct.t) :
  run (CreateProduct.mutate input) s fs = (Return res, s') →
  to_python (str_Z (CreateProduct.product res).1)
    = Some (CreateProduct.product res).1 →
  quiet 1 fs' = true →
  run (Query.resolve_product to_python
         (str_Z (CreateProduct.product res).1)) s' fs' =
    (Return (Some (CreateProduct.product res)), s')
  ∧ ∃ before after,
      run Query.resolve_products s fs' = (Return before, s)
      ∧ run Query.resolve_products s' fs' = (Return after, s')
      ∧ after ≡ₚ CreateProduct.product res :: before.
Proof.
  intros (price & stock & _ & _ & _ & _ & _ & _ & -> & ->)%createProduct_return_inv.
  cbn [CreateProduct.product fst]. intros Hid Hq.
  unfold Query.resolve_product, Query.resolve_products, Product_all,
    Product_get.
  rewrite Hid. unfold_run. unfold execute. simpl.
  destruct fs' as [|[d|] fs']; [|done|]; simpl; rewrite lookup_insert_eq;
    (split; [done|]); eexists _, _; (split; [done|]); (split; [done|]);
    apply map_to_list_insert, next_pk_fresh.
Qed.

(** X17: the same for [createOrder], [resolve_order] and
    [resolve_orders]: the order comes back with the total that the call
    has computed. *)
Theorem createOrder_then_resolve (input : OrderInput) (s s' : Store)
    (fs fs' : list (option string)) (res : CreateOrder.t) :
  run (CreateOrder.mutate to_python input) s fs = (Return res, s') →
  to_python (str_Z (CreateOrder.order res).1) = Some (CreateOrder.order res).1 →
  quiet 1 fs' = true →
  run (Query.resolve_order to_python (str_Z (CreateOrder.order res).1)) s' fs'
    = (Return (Some (CreateOrder.order res)), s')
  ∧ ∃ before after,
      run Query.resolve_orders s fs' = (Return before, s)
      ∧ run Query.resolve_orders s' fs' = (Return after, s')
      ∧ after ≡ₚ CreateOrder.order res :: before.
Proof.
  intros (k & crow & ks & _ & _ & _ & _ & _ & _ & -> & ->)%createOrder_return_inv.
  cbn [CreateOrder.order fst]. intros Hid Hq.
  unfold Query.resolve_order, Query.resolve_orders, Order_all, Order_get.
  rewrite Hid. unfold_run. unfold execute. simpl.
  destruct fs' as [|[d|] fs']; [|done|]; simpl; rewrite lookup_insert_eq;
    (split; [done|]); eexists _, _; (split; [done|]); (split; [done|]);
    apply map_to_list_insert, next_pk_fresh.
Qed.

End round_trips.

(** Bob, customer 2 of the shop. *)
Lemma createCustomer_then_resolve_witness :
  run (Query.resolve_customer int_of_numeral "2")
    (set_customers shop (<[2 := customer_row bob]> (customers shop))) [] =
    (Return (Some (2, customer_row bob)),
     set_customers shop (<[2 := customer_row bob]> (customers shop))).
Proof.
  exact (proj1 (createCustomer_then_resolve int_of_numeral bob shop
                  (set_customers shop (<[2 := customer_row bob]> (customers shop)))
                  [] []
                  {| CreateCustomer.customer := (2, customer_row bob);
                     CreateCustomer.message := "Customer created successfully" |}
                  eq_refl eq_refl eq_refl)).
Defined.

(** The widget, product 3 of the shop. *)
Lemma createProduct_then_resolve_witness :
  let row := {| p_name := "Widget"; p_price := {| d_int := 999; d_exp := -2 |};
                p_stock := 5 |} in
  let s' := set_products shop (<[3 := row]> (products shop)) in
  run (CreateProduct.mutate widget) shop [] =
    (Return {| CreateProduct.product := (3, row) |}, s')
  ∧ run (Query.resolve_product int_of_numeral "3") s' [] =
    (Return (Some (3, row)), s').
Proof.
  intros row s'.
  assert (run (CreateProduct.mutate widget) shop [] =
            (Return {| CreateProduct.product := (3, row) |}, s')) as Hrun
    by (vm_compute; reflexivity).
  split; [exact Hrun|].
  exact (proj1 (createProduct_then_resolve int_of_numeral widget shop s'
                  [] [] _ Hrun eq_refl eq_refl)).
Defined.

(** The order for the pen and the ink, order 1 of the shop. *)
Lemma createOrder_then_resolve_witness :
  let row := {| o_customer := 1;
                o_total_amount := {| d_int := 1550; d_exp := -2 |};
                o_order_date := 1700000000 |} in
  let s' := (run (CreateOrder.mutate int_of_numeral order_both) shop []).2 in
  run (CreateOrder.mutate int_of_numeral order_both) shop [] =
    (Return {| CreateOrder.order := (1, row);
               CreateOrder.message := "Order created successfully" |}, s')
  ∧ run (Query.resolve_order int_of_numeral "1") s' [] =
    (Return (Some (1, row)), s').
Proof.
  intros row s'.
  assert (run (CreateOrder.mutate int_of_numeral order_both) shop [] =
            (Return {| CreateOrder.order := (1, row);
                       CreateOrder.message := "Order created successfully" |},
             s')) as Hrun
    by (vm_compute; reflexivity).
  split; [exact Hrun|].
  exact (proj1 (createOrder_then_resolve int_of_numeral order_both shop s'
                  [] [] _ Hrun eq_refl eq_refl)).
Defined.

(** ** What the mutations keep *)

Lemma only_adds_customers (s : Store) (t : gmap Z CustomerRow) :
  customers s ⊆ t → only_adds s (set_customers s t).
Proof. intros Hsub. by repeat split. Qed.

Lemma only_adds_products (s : Store) (t : gmap Z ProductRow) :
  products s ⊆ t → only_adds s (set_products s t).
Proof. intros Hsub. by repeat split. Qed.

(** References still resolve when rows are added to the customers and to
    the products and the orders and their links stay as they are. *)
Lemma references_resolve_grow (s s' : Store) :
  references_resolve s →
  customers s ⊆ customers s' → products s ⊆ products s' →
  orders s' = orders s → order_products s' = order_products s →
  references_resolve s'.
Proof.
  intros [Hcust Hlinks] Hc Hp Ho Hop. split.
  - intros ko row. rewrite Ho. intros Hrow.
    destruct (Hcust ko row Hrow) as [crow Hcrow].
    exists crow. by eapply lookup_weaken.
  - intros ko assoc. rewrite Hop, Ho. intros Hassoc.
    destruct (Hlinks ko assoc Hassoc) as [Hko Hall]. split; [done|].
    intros kp Hkp. destruct (Hall kp Hkp) as [prow Hprow].
    exists prow. by eapply lookup_weaken.
Qed.

(** What a [bulkCreateCustomers] call does to the store, whatever its
    outcome. *)
Lemma bulk_store_inv (input : list (option CustomerInput)) (s s' : Store)
    (fs : list (option string)) (r : outcome BulkCreateCustomers.t) :
  run (BulkCreateCustomers.mutate input) s fs = (r, s') →
  customers s ⊆ customers s' ∧ products s' = products s
  ∧ orders s' = orders s ∧ order_products s' = order_products s.
Proof.
  unfold run, BulkCreateCustomers.mutate. unfold_run. unfold atomic.
  cbn [db faults].
  set (c0 := {| db := s; faults := fs; in_atomic := true;
                needs_rollback := false |}).
  destruct (BulkCreateCustomers.loop input [] [] c0)
    as [[[cs' es']|e] c'] eqn:Hloop.
  - destruct (loop_keys _ _ _ _ _ _ _ Hloop)
      as (new & _ & _ & _ & Hsub & Hp & Ho & Hop).
    cbn [db fst snd]. intros [= _ <-].
    by destruct (needs_rollback c').
  - cbn [db]. by intros [= _ <-].
Qed.

Section kept.
Variable to_python : string → option Z.

(** What a [createOrder] call does to the store, whatever its outcome. *)
Lemma createOrder_store_inv (input : OrderInput) (s s' : Store)
    (fs : list (option string)) (r : outcome CreateOrder.t) :
  run (CreateOrder.mutate to_python input) s fs = (r, s') →
  s' = s
  ∨ ∃ (k : Z) (ps : list Product) (row : OrderRow),
      is_Some (customers s !! k) ∧ o_customer row = k
      ∧ (∀ kp, kp ∈ ps.*1 → is_Some (products s !! kp))
      ∧ s' = {| customers := customers s;
                products := products s;
                orders := <[next_pk (orders s) := row]> (orders s);
                order_products :=
                  <[next_pk (orders s) := list_to_set ps.*1]>
                    (order_products s);
                clock := clock s |}.
Proof.
  destruct r as [res|e]; intros Hrun.
  - right. apply createOrder_return_inv in Hrun
      as (k & crow & ks & _ & Hrow & _ & _ & _ & _ & _ & ->).
    exists k, (fetch (products s) ks),
      {| o_customer := k;
         o_total_amount :=
           dec_sum ((λ p : Product, p_price p.2) <$> fetch (products s) ks);
         o_order_date := default (clock s) (oi_order_date input) |}.
    split; [by exists crow|]. split; [done|]. split; [|done].
    intros kp ((kp' & prow) & -> & Hin)%list_elem_of_fmap.
    apply elem_of_fetch in Hin as [Hin _]. by exists prow.
  - left. revert Hrun. apply run_raise_db, createOrder_raise_db.
Qed.

(** X18: no mutation changes or removes what is in the store: every
    customer, product, order and link of the store before a call is in
    the store after it, unchanged, whatever the outcome of the call.  (For
    [createOrder] the links of the store must belong to orders of the
    store.) *)
Theorem mutations_only_add (s s' : Store) (fs : list (option string)) :
  (∀ input r, run (CreateCustomer.mutate input) s fs = (r, s') →
     only_adds s s')
  ∧ (∀ input r, run (BulkCreateCustomers.mutate input) s fs = (r, s') →
     only_adds s s')
  ∧ (∀ input r, run (CreateProduct.mutate input) s fs = (r, s') →
     only_adds s s')
  ∧ (∀ input r, references_resolve s →
     run (CreateOrder.mutate to_python input) s fs = (r, s') →
     only_adds s s').
Proof.
  split; [|split; [|split]].
  - intros input [res|e] Hrun.
    + apply createCustomer_return_inv in Hrun as (_ & _ & _ & _ & ->).
      apply only_adds_customers, insert_subseteq, next_pk_fresh.
    + apply createCustomer_raise_inv in Hrun as [_ ->]. by repeat split.
  - intros input r (Hc & Hp & Ho & Hop)%bulk_store_inv.
    unfold only_adds. by rewrite Hp, Ho, Hop.
  - intros input [res|e] Hrun.
    + apply createProduct_return_inv in Hrun
        as (price & stock & _ & _ & _ & _ & _ & _ & _ & ->).
      apply only_adds_products, insert_subseteq, next_pk_fresh.
    + apply createProduct_raise_inv in Hrun as [-> _]. by repeat split.
  - intros input r [_ Hlinks] [->|(k & ps & row & _ & _ & _ & ->)]%createOrder_store_inv;
      [by repeat split|].
    pose proof (next_pk_fresh (orders s)) as Hfresh.
    split; [done|]. split; [done|]. cbn [orders order_products].
    split; apply insert_subseteq; [done|].
    destruct (order_products s !! next_pk (orders s)) as [assoc|] eqn:Hassoc;
      [|done].
    destruct (Hlinks _ _ Hassoc) as [[orow Horow] _]. congruence.
Qed.

(** X19: every mutation keeps the references of the store intact: if
    every order belongs to a customer of the store and every link joins an
    order and a product of the store, the same holds after a call,
    whatever its outcome. *)
Theorem mutations_keep_references (s s' : Store) (fs : list (option string)) :
  references_resolve s →
  (∀ input r, run (CreateCustomer.mutate input) s fs = (r, s') →
     references_resolve s')
  ∧ (∀ input r, run (BulkCreateCustomers.mutate input) s fs = (r, s') →
     references_resolve s')
  ∧ (∀ input r, run (CreateProduct.mutate input) s fs = (r, s') →
     references_resolve s')
  ∧ (∀ input r, run (CreateOrder.mutate to_python input) s fs = (r, s') →
     references_resolve s').
Proof.
  intros Href. split; [|split; [|split]].
  - intros input [res|e] Hrun.
    + apply createCustomer_return_inv in Hrun as (_ & _ & _ & _ & ->).
      apply (references_resolve_grow s); try done.
      apply insert_subseteq, next_pk_fresh.
    + by apply createCustomer_raise_inv in Hrun as [_ ->].
  - intros input r (Hc & Hp & Ho & Hop)%bulk_store_inv.
    apply (references_resolve_grow s); try done. by rewrite Hp.
  - intros input [res|e] Hrun.
    + apply createProduct_return_inv in Hrun
        as (price & stock & _ & _ & _ & _ & _ & _ & _ & ->).
      apply (references_resolve_grow s); try done.
      apply insert_subseteq, next_pk_fresh.
    + by apply createProduct_raise_inv in Hrun as [-> _].
  - intros input r
      [->|(k & ps & row & Hk & Hrow & Hps & ->)]%createOrder_store_inv;
      [done|].
    destruct Href as [Hcust Hlinks].
    set (ko := next_pk (orders s)).
    split; cbn [customers products orders order_products].
    + intros ko' row'. destruct (decide (ko' = ko)) as [->|Hne].
      * rewrite lookup_insert_eq. intros [= <-]. by rewrite Hrow.
      * rewrite lookup_insert_ne by done. apply Hcust.
    + intros ko' assoc. destruct (decide (ko' = ko)) as [->|Hne].
      * rewrite !lookup_insert_eq. intros [= <-]. split; [by eexists|].
        intros kp Hkp. apply Hps. by apply elem_of_list_to_set in Hkp.
      * rewrite !lookup_insert_ne by done. apply Hlinks.
Qed.

End kept.

(** The shop has no order yet. *)
Lemma shop_references_resolve : references_resolve shop.
Proof.
  split.
  - intros ko row H. change (orders shop) with (∅ : gmap Z OrderRow) in H.
    by rewrite lookup_empty in H.
  - intros ko assoc H.
    change (order_products shop) with (∅ : gmap Z (gset Z)) in H.
    by rewrite lookup_empty in H.
Qed.

(** The shop after the order for the pen and the ink. *)
Lemma mutations_only_add_witness :
  only_adds shop (run (CreateOrder.mutate int_of_numeral order_both) shop []).2.
Proof.
  refine (proj2 (proj2 (proj2 (mutations_only_add int_of_numeral shop _ [])))
            order_both _ shop_references_resolve _).
  apply surjective_pairing.
Defined.

(** The same store. *)
Lemma mutations_keep_references_witness :
  references_resolve
    (run (CreateOrder.mutate int_of_numeral order_both) shop []).2.
Proof.
  refine (proj2 (proj2 (proj2 (mutations_keep_references int_of_numeral shop _ []
                                 shop_references_resolve)))
            order_both _ _).
  apply surjective_pairing.
Defined.
